(** * conan-check-updates: the command line driver ([__main__.py])

    A shallow embedding of [src/conan_check_updates/__main__.py]:
    the colour helpers, the update column, the resolution of a declared
    range, the progress bar generator, the report loop of [run] and the
    interrupt handler of [main].

    Conventions.
    - A Python [str] is a [string]; one [ascii] stands for one character.
      Package names and version strings of conan recipes are ASCII, where
      Python's comparison of strings is the comparison of their bytes.
    - A Python [int] is a [Z].
    - An exception is a value of [Exn]; code that can raise returns a
      [Result].
    - The modules [version], [conan] and [filter] that [__main__.py]
      imports are an interface, [Imports]; what the process reads from the
      disk and the registry during one execution is a [World]. *)

From Stdlib Require Import ZArith List String Ascii Bool Lia.
From Stdlib Require Import Sorting.Sorted Sorting.Permutation.
From Stdlib Require Import DecimalString Structures.OrderedTypeEx.
From Equations.Prop Require Import Equations Logic.
Import ListNotations.

Local Open Scope string_scope.
Local Open Scope Z_scope.

Set Implicit Arguments.

(* ================================================================== *)
(** ** Python strings *)
(* ================================================================== *)

Module PyStr.

(** [s[:n]] for [0 <= n]: the slice is clamped at the end of [s]. *)
Fixpoint take (n : nat) (s : string) : string :=
  match n, s with
  | S n', String c s' => String c (take n' s')
  | _, _ => EmptyString
  end.

(** [s[n:]] for [0 <= n]. *)
Fixpoint drop (n : nat) (s : string) : string :=
  match n, s with
  | S n', String _ s' => drop n' s'
  | _, _ => s
  end.

(** [c * n]; a count that is not positive gives the empty string. *)
Definition repeat (c : string) (n : Z) : string :=
  String.concat "" (List.repeat c (Z.to_nat n)).

(** [len(s)] *)
Definition len (s : string) : Z := Z.of_nat (String.length s).

(** [sep.join(items)] *)
Definition join (sep : string) (items : list string) : string :=
  String.concat sep items.

(** [str(n)] for an [int]. *)
Definition of_int (n : Z) : string := NilZero.string_of_int (Z.to_int n).

(** [format(s, "<w")]: [s] padded with spaces on the right to width [w]. *)
Definition ljust (w : Z) (s : string) : string :=
  s ++ repeat " " (w - len s).

(** [format(s, ">w")]: [s] padded with spaces on the left to width [w]. *)
Definition rjust (w : Z) (s : string) : string :=
  repeat " " (w - len s) ++ s.

(** [zip(a, b)] over the characters of two strings. *)
Fixpoint zip (a b : string) : list (ascii * ascii) :=
  match a, b with
  | String x a', String y b' => (x, y) :: zip a' b'
  | _, _ => []
  end.

(** [enumerate(l)], counting from [start]. *)
Fixpoint enumerate_from {A} (start : nat) (l : list A) : list (nat * A) :=
  match l with
  | [] => []
  | x :: l' => (start, x) :: enumerate_from (S start) l'
  end.

Definition enumerate {A} (l : list A) : list (nat * A) := enumerate_from 0 l.

End PyStr.

(* ================================================================== *)
(** ** Colours *)
(* ================================================================== *)

(** The escape character, code 27 (written [\033] in the source). *)
Definition ESC : ascii := ascii_of_nat 27.

(** [class Colors] *)
Module Colors.
Definition RESET : string := String ESC "[0m".
Definition BOLD : string := String ESC "[1m".
Definition DISABLE : string := String ESC "[2m".
Definition UNDERLINE : string := String ESC "[4m".
Definition REVERSE : string := String ESC "[07m".
Definition RED : string := String ESC "[31m".
Definition GREEN : string := String ESC "[32m".
Definition ORANGE : string := String ESC "[33m".
Definition BLUE : string := String ESC "[34m".
Definition PURPLE : string := String ESC "[35m".
Definition CYAN : string := String ESC "[36m".
End Colors.

(** [colored(txt, *colors)]: the colour codes, the text, then [RESET]. *)
Definition colored (txt : string) (colors : list string) : string :=
  PyStr.join "" (colors ++ [txt; Colors.RESET])%list.

(** The index of the first position at which the two strings differ,
    looking only at the positions both have:
    [next((i for i, (s1, s2) in enumerate(zip(version, compare)) if s1 != s2), None)]. *)
Definition i_first_diff (version compare : string) : option nat :=
  option_map fst
    (List.find (fun '(_, (s1, s2)) => negb (Ascii.eqb s1 s2))
               (PyStr.enumerate (PyStr.zip version compare))).

(** [highlight_version_diff(version, compare, highlight=Colors.RED)] *)
Definition highlight_version_diff
    (version compare : string) (highlight : string) : string :=
  match i_first_diff version compare with
  | None => version
  | Some i => PyStr.take i version ++ colored (PyStr.drop i version) [highlight]
  end.

(* ------------------------------------------------------------------ *)
(** *** Removing colour codes

    The source has no function that removes colour codes; the one below
    states what "stripping the escape sequences" of a text means: every
    sequence [ESC [ p m], with [p] a possibly empty run of digits and
    semicolons, is deleted and everything else is kept. *)

Definition is_sgr_param (c : ascii) : bool :=
  let n := nat_of_ascii c in
  ((48 <=? n)%nat && (n <=? 57)%nat) || Ascii.eqb c ";".

Inductive StripMode : Type :=
| Plain                      (* outside a sequence *)
| AfterEsc                   (* ESC read *)
| InSeq (held : string).     (* ESC [ and the parameters [held] read *)

(** What was held back is text after all when no [m] closes it. *)
Definition strip_flush (m : StripMode) : string :=
  match m with
  | Plain => ""
  | AfterEsc => String ESC ""
  | InSeq held => String ESC (String "[" held)
  end.

Fixpoint strip_from (m : StripMode) (s : string) : string :=
  match s with
  | EmptyString => strip_flush m
  | String c s' =>
      match m with
      | Plain =>
          if Ascii.eqb c ESC then strip_from AfterEsc s'
          else String c (strip_from Plain s')
      | AfterEsc =>
          if Ascii.eqb c "[" then strip_from (InSeq "") s'
          else if Ascii.eqb c ESC then String ESC (strip_from AfterEsc s')
          else String ESC (String c (strip_from Plain s'))
      | InSeq held =>
          if Ascii.eqb c "m" then strip_from Plain s'
          else if is_sgr_param c then strip_from (InSeq (held ++ String c "")) s'
          else if Ascii.eqb c ESC then strip_flush m ++ strip_from AfterEsc s'
          else strip_flush m ++ String c (strip_from Plain s')
      end
  end.

Definition strip_ansi (s : string) : string := strip_from Plain s.

(** No escape character occurs in [s]. *)
Fixpoint no_esc (s : string) : bool :=
  match s with
  | EmptyString => true
  | String c s' => negb (Ascii.eqb c ESC) && no_esc s'
  end.

(** Neither string differs from the other at a position both have. *)
Fixpoint agree (a b : string) : bool :=
  match a, b with
  | String x a', String y b' => Ascii.eqb x y && agree a' b'
  | _, _ => true
  end.

(* ================================================================== *)
(** ** Exceptions and the output stream *)
(* ================================================================== *)

Inductive Exn : Type :=
| AssertionError
| ZeroDivisionError
| KeyboardInterrupt
| OtherError (name : string).

Inductive Result (A : Type) : Type :=
| Ok (a : A)
| Raised (e : Exn).

Arguments Ok {A} a.
Arguments Raised {A} e.

Definition bind {A B} (r : Result A) (k : A -> Result B) : Result B :=
  match r with
  | Ok a => k a
  | Raised e => Raised e
  end.

Notation "x <- r ;; k" := (bind r (fun x => k))
  (at level 61, r at next level, right associativity).

(** [assert b] *)
Definition py_assert (b : bool) : Result unit :=
  if b then Ok tt else Raised AssertionError.

(** [int(a / b)]: the quotient truncated towards zero; dividing by zero
    raises.  (The source divides in floating point; the quotient of two
    integers is rounded correctly and its truncation is the integer
    quotient as long as [b] times the quotient stays below 2^53.) *)
Definition int_truediv (a b : Z) : Result Z :=
  if b =? 0 then Raised ZeroDivisionError else Ok (Z.quot a b).

(** What a [TextIO] object has been asked to do, oldest first. *)
Inductive FileOp : Type :=
| Write (s : string)
| Flush.

Definition File : Type := list FileOp.

Definition CR : string := String (ascii_of_nat 13) "".
Definition LF : string := String (ascii_of_nat 10) "".

(* ================================================================== *)
(** ** The progress bar: [async_progressbar] *)
(* ================================================================== *)

(** How an asynchronous iterator behaves when it is consumed to its end:
    the items it produces, then [StopAsyncIteration] or an exception. *)
Inductive Ending : Type :=
| Exhausted
| Fails (e : Exn).

Record AsyncIterator (A : Type) : Type := mkIter {
  items : list A;
  ending : Ending
}.

(** Where the body of the generator is suspended. *)
Inductive Pc : Type :=
| AtStart        (* created, not started *)
| AtYield        (* at [yield item] *)
| AtEnd.         (* returned or raised *)

(** The generator object: its arguments and its local state.  [g_i] is
    the local variable [i]; it is unbound before the first resumption. *)
Record Generator (A : Type) : Type := mkGen {
  g_total : Z;
  g_desc : string;
  g_size : Z;
  g_keep : bool;
  g_pc : Pc;
  g_i : Z;
  g_it : AsyncIterator A
}.

(** What one [__anext__] gives the consumer. *)
Inductive Resumption (A : Type) : Type :=
| Yielded (item : A)
| Stopped
| Threw (e : Exn).

Arguments Stopped {A}.
Arguments Threw {A} e.

Section ProgressBar.

Context {A : Type}.

(** [async_progressbar(it, total, desc, size, keep, file)]: calling the
    function only creates the generator. *)
Definition async_progressbar
    (it : AsyncIterator A) (total : Z) (desc : string) (size : Z)
    (keep : bool) : Generator A :=
  mkGen total desc size keep AtStart 0 it.

(** The text [show(j)] writes, or the exception it raises. *)
Definition show (total : Z) (desc : string) (size : Z) (j : Z)
  : Result string :=
  _ <- py_assert ((0 <=? j) && (j <=? total)) ;;
  nbar <- (if 0 <? total then int_truediv (size * j) total else Ok size) ;;
  perc <- (if 0 <? total then int_truediv (100 * j) total else Ok 100) ;;
  Ok (desc ++ "[" ++ PyStr.repeat "=" nbar
           ++ PyStr.repeat "-" (size - nbar) ++ "] "
           ++ PyStr.of_int j ++ "/" ++ PyStr.of_int total ++ " "
           ++ PyStr.of_int perc ++ "%" ++ CR).

Definition set_state (g : Generator A) (pc : Pc) (i : Z)
    (it : AsyncIterator A) : Generator A :=
  mkGen (g_total g) (g_desc g) (g_size g) (g_keep g) pc i it.

(** The head of [async for item in it]: the next item is yielded; when
    the iterator is exhausted the closing write follows the loop; when
    it raises, the exception leaves the generator. *)
Definition pull (g : Generator A) (i : Z) (file : File)
  : Resumption A * Generator A * File :=
  match items (g_it g) with
  | item :: rest =>
      (Yielded item, set_state g AtYield i (mkIter rest (ending (g_it g))), file)
  | [] =>
      match ending (g_it g) with
      | Exhausted =>
          (Stopped, set_state g AtEnd i (g_it g),
           (file ++ [Write (if g_keep g then LF else CR); Flush])%list)
      | Fails e => (Threw e, set_state g AtEnd i (g_it g), file)
      end
  end.

(** [i] becomes [i'], [show(i')] runs, then the loop asks for an item. *)
Definition show_then_pull (g : Generator A) (i' : Z) (file : File)
  : Resumption A * Generator A * File :=
  match show (g_total g) (g_desc g) (g_size g) i' with
  | Raised e => (Threw e, set_state g AtEnd i' (g_it g), file)
  | Ok txt => pull g i' (file ++ [Write txt; Flush])%list
  end.

(** One [__anext__]. *)
Definition anext (g : Generator A) (file : File)
  : Resumption A * Generator A * File :=
  match g_pc g with
  | AtStart => show_then_pull g 0 file            (* i = 0; show(i) *)
  | AtYield => show_then_pull g (g_i g + 1) file  (* i += 1; show(i) *)
  | AtEnd => (Stopped, g, file)
  end.

(** [k] resumptions in a row, whatever they give. *)
Fixpoint resume (k : nat) (g : Generator A) (file : File)
  : Generator A * File :=
  match k with
  | O => (g, file)
  | S k' => let '(_, g', file') := anext g file in resume k' g' file'
  end.

(** What the [k]-th resumption (counting from 1) gives. *)
Definition resumption (k : nat) (g : Generator A) (file : File)
  : Resumption A :=
  let '(g', file') := resume (Nat.pred k) g file in
  fst (fst (anext g' file')).

(** The argument of the call of [show] that the next resumption makes. *)
Definition next_count (g : Generator A) : Z :=
  match g_pc g with
  | AtStart => 0
  | _ => g_i g + 1
  end.

(** Items the generator can still yield. *)
Definition pending (g : Generator A) : nat :=
  match g_pc g with
  | AtEnd => O
  | _ => List.length (items (g_it g))
  end.

End ProgressBar.

(** The line [show] writes for a bar of [nbar] marks and a percentage
    [perc]: the f-string of [show]. *)
Definition bar_line (desc : string) (size nbar j total perc : Z) : string :=
  desc ++ "[" ++ PyStr.repeat "=" nbar
       ++ PyStr.repeat "-" (size - nbar) ++ "] "
       ++ PyStr.of_int j ++ "/" ++ PyStr.of_int total ++ " "
       ++ PyStr.of_int perc ++ "%" ++ CR.


(** The generator consumed to its end: it is resumed until it stops or
    raises, and what it yielded on the way is the behaviour of the
    generator as an asynchronous iterator.  Every resumption that yields
    leaves one item less to come, so this ends. *)
Equations? drain {A : Type} (g : Generator A) (file : File)
  : AsyncIterator A * File by wf (pending g) lt :=
  drain g file with inspect (anext g file) := {
    | exist _ (Yielded item, g', file') _ with drain g' file' := {
        | (later, file'') := (mkIter (item :: items later) (ending later), file'') };
    | exist _ (Stopped, _, file') _ := (mkIter [] Exhausted, file');
    | exist _ (Threw e, _, file') _ := (mkIter [] (Fails e), file') }.
Proof.
  unfold anext, show_then_pull, pull, pending in *.
  destruct (g_pc g); try discriminate;
    destruct (show _ _ _ _); try discriminate;
    destruct (items (g_it g)); try (destruct (ending (g_it g))); try discriminate;
    match goal with H : (_, _, _) = (_, _, _) |- _ => injection H as _ <- _ end;
    simpl; lia.
Qed.

(** [[item async for item in g]]: the list of the items, unless the
    generator raises. *)
Definition collect {A : Type} (g : Generator A) (file : File)
  : Result (list A) * File :=
  match drain g file with
  | (mkIter got Exhausted, file') => (Ok got, file')
  | (mkIter _ (Fails e), file') => (Raised e, file')
  end.

(** The body of the generator read as one loop, from a call [show(i)] on:
    the text is written, then either the next item is yielded and the
    count goes up by one, or the loop is left. *)
Fixpoint bar_loop {A : Type} (total : Z) (desc : string) (size : Z)
    (keep : bool) (i : Z) (todo : list A) (how : Ending) (file : File)
  : AsyncIterator A * File :=
  match show total desc size i with
  | Raised e => (mkIter [] (Fails e), file)
  | Ok txt =>
      let file' := (file ++ [Write txt; Flush])%list in
      match todo with
      | item :: rest =>
          let '(later, file'') :=
            bar_loop total desc size keep (i + 1) rest how file' in
          (mkIter (item :: items later) (ending later), file'')
      | [] =>
          match how with
          | Exhausted =>
              (mkIter [] Exhausted,
               (file' ++ [Write (if keep then LF else CR); Flush])%list)
          | Fails e => (mkIter [] (Fails e), file')
          end
      end
  end.

(* ================================================================== *)
(** ** What [__main__.py] imports *)
(* ================================================================== *)

(** [VersionPart] *)
Inductive VersionPart : Type := MAJOR | MINOR | PATCH.

(** Modelled from the spec: [VersionLike] of [version.py], which is not
    part of the sources at hand.  It is "either a concrete Version or an
    opaque non-semantic string". *)
Inductive VersionLike (V : Type) : Type :=
| Semantic (v : V)
| Opaque (s : string).

Arguments Opaque {V} s.

(** Modelled from the spec: [VersionLikeOrRange] of [version.py], the
    "discriminated union of VersionLike and VersionRange". *)
Inductive VersionLikeOrRange (V R : Type) : Type :=
| Like (v : VersionLike V)
| Range (r : R).

Arguments Like {V R} v.
Arguments Range {V R} r.

(** The rest of the modules [version] and [filter]: the two classes, their
    [__str__], and the functions [__main__.py] calls.  An instance of
    [Version] counts as true in a condition, like any object whose class
    does not define otherwise. *)
Class Imports : Type := {
  Version : Type;
  VersionRange : Type;
  version_str : Version -> string;
  range_str : VersionRange -> string;
  max_satifies :
    VersionRange -> list (VersionLike Version) -> option (VersionLike Version);
  find_update :
    VersionLike Version -> list (VersionLike Version) -> VersionPart ->
    option Version;
  matches_any : string -> list string -> bool
}.

Section Main.

Context {I : Imports}.

Definition VLike : Type := VersionLike Version.
Definition VLikeOrRange : Type := VersionLikeOrRange Version VersionRange.

(** Modelled from the spec: [is_semantic_version] of [version.py]: "true
    iff v parsed successfully as a Version (not an opaque string)".  The
    source also calls it on [None], which is no version. *)
Definition is_semantic_version (v : option VLike) : bool :=
  match v with
  | Some (Semantic _) => true
  | _ => false
  end.

(** [str(v)] for a [VersionLike]. *)
Definition like_str (v : VLike) : string :=
  match v with
  | Semantic x => version_str x
  | Opaque s => s
  end.

(** [str(v)] for an [Optional[VersionLike]]. *)
Definition opt_like_str (v : option VLike) : string :=
  match v with
  | Some x => like_str x
  | None => "None"
  end.

(** [str(v)] for a [VersionLikeOrRange]. *)
Definition like_or_range_str (v : VLikeOrRange) : string :=
  match v with
  | Like x => like_str x
  | Range r => range_str r
  end.

(** [bool(v)] for an [Optional[VersionLike]]: [None] and the empty
    string are false. *)
Definition truthy (v : option VLike) : bool :=
  match v with
  | None => false
  | Some (Semantic _) => true
  | Some (Opaque s) => negb (String.eqb s "")
  end.

(** The reference of a requirement, [result.ref]: [package], [version]. *)
Record RequirementRef : Type := mkRef {
  package : string;
  version : VLikeOrRange
}.

(** What a lookup gives, [result]: [ref], [versions]. *)
Record SearchResult : Type := mkResult {
  ref : RequirementRef;
  versions : list VLike
}.

(* ---------------------------------------------------------------- *)
(** *** [text_update_column] and [resolve_version] *)

Definition text_update_column
    (current_version : option VLike) (update_version : option Version)
    (versions : list VLike) : string :=
  if negb (is_semantic_version current_version) then
    PyStr.join ", " (List.map like_str versions)
  else
    match update_version with
    | Some u =>
        highlight_version_diff (version_str u) (opt_like_str current_version)
                               Colors.RED
    | None => opt_like_str current_version
    end.

Definition resolve_version
    (version_or_range : VLikeOrRange) (versions : list VLike)
  : option VLike :=
  match version_or_range with
  | Range r =>
      let versions_semantic :=
        List.filter (fun v => is_semantic_version (Some v)) versions in
      max_satifies r versions_semantic
  | Like v => Some v
  end.

(* ---------------------------------------------------------------- *)
(** *** [sorted] and [max] *)

(** [sorted(l, key=key)] on string keys: a stable sort that compares
    with [<] only.  An element goes in front of the first one whose key
    is not smaller than its own. *)
Fixpoint insert_by {A : Type} (key : A -> string) (x : A) (l : list A)
  : list A :=
  match l with
  | [] => [x]
  | y :: l' =>
      if String.ltb (key y) (key x) then y :: insert_by key x l'
      else x :: y :: l'
  end.

Definition sorted {A : Type} (key : A -> string) (l : list A) : list A :=
  List.fold_right (insert_by key) [] l.

(** [max(a, b, *rest)] *)
Definition py_max (a b : Z) (rest : list Z) : Z :=
  List.fold_left Z.max rest (Z.max a b).

(* ---------------------------------------------------------------- *)
(** *** [run] *)

(** What the process meets outside: the recipe found under a path, the
    requirements read from it, and the behaviour of the concurrent
    lookups, whose results come in the order of their completion. *)
Record World : Type := mkWorld {
  find_conanfile : string -> string;
  inspect_requires_conanfile : string -> list RequirementRef;
  search_versions_parallel :
    list RequirementRef -> Z -> AsyncIterator SearchResult
}.

(** A call [find_update(current, versions, target=target)]. *)
Record FindUpdateCall : Type := mkCall {
  call_current : VLike;
  call_versions : list VLike;
  call_target : VersionPart
}.

(** The column widths, [cols]. *)
Record Cols : Type := mkCols {
  cols_package : Z;
  cols_version : Z
}.

Definition ARROW : string :=
  String (ascii_of_nat 226) (String (ascii_of_nat 134)
    (String (ascii_of_nat 146) "")).

(** ["{:<{cols_package}} {:>{cols_version}}  →  {}".format(a, b, c, **cols)] *)
Definition format_str (cols : Cols) (a b c : string) : string :=
  PyStr.ljust (cols_package cols) a ++ " "
    ++ PyStr.rjust (cols_version cols) b ++ "  " ++ ARROW ++ "  " ++ c.

Definition compute_cols (results : list SearchResult) : Cols :=
  mkCols
    (py_max 0 10 (List.map (fun r => PyStr.len (package (ref r))) results) + 1)
    (py_max 0 10
       (List.map (fun r => PyStr.len (like_or_range_str (version (ref r))))
                 results)).

(** What the body of the report loop works out for one result, with the
    calls of [find_update] it made. *)
Record Verdict : Type := mkVerdict {
  current_version_resolved : option VLike;
  update_version : option Version;
  invoked : list FindUpdateCall
}.

Definition verdict (target : VersionPart) (result : SearchResult) : Verdict :=
  let current_version_or_range := version (ref result) in
  let resolved := resolve_version current_version_or_range (versions result) in
  match resolved with
  | Some current =>
      if truthy resolved then
        mkVerdict resolved (find_update current (versions result) target)
                  [mkCall current (versions result) target]
      else mkVerdict resolved None []
  | None => mkVerdict resolved None []
  end.

(** [skip] *)
Definition skip (v : Verdict) : bool :=
  is_semantic_version (current_version_resolved v)
  && match update_version v with None => true | Some _ => false end.

(** The text the loop prints for a result it does not skip. *)
Definition row (cols : Cols) (result : SearchResult) (v : Verdict) : string :=
  format_str cols
    (package (ref result))
    (like_or_range_str (version (ref result)))
    (text_update_column (current_version_resolved v) (update_version v)
                        (versions result)).

(** What a run leaves behind: the texts given to [print], one for each
    call; the operations on [sys.stderr]; the calls of [find_update];
    and how the coroutine ended. *)
Record RunResult : Type := mkRun {
  stdout : list string;
  stderr : File;
  calls : list FindUpdateCall;
  outcome : Result unit
}.

(** One turn of [for result in sorted(results, ...)]. *)
Definition report_step (cols : Cols) (target : VersionPart)
    (st : list string * list FindUpdateCall) (result : SearchResult)
  : list string * list FindUpdateCall :=
  let v := verdict target result in
  let log := (snd st ++ invoked v)%list in
  if skip v then (fst st, log)
  else ((fst st ++ [row cols result v])%list, log).

(** [refs_filtered] *)
Definition refs_filtered (w : World) (path : string)
    (package_filter : list string) : list RequirementRef :=
  let conanfile := find_conanfile w path in
  let refs := inspect_requires_conanfile w conanfile in
  List.filter (fun r => matches_any (package r) package_filter) refs.

(** The lookups of a run, [search_versions_parallel(refs_filtered, timeout=timeout)]. *)
Definition lookups (w : World) (path : string)
    (package_filter : list string) (timeout : Z)
  : AsyncIterator SearchResult :=
  search_versions_parallel w (refs_filtered w path package_filter) timeout.

(** The progress bar of a run, on [sys.stderr], with the defaults of
    [desc], [size] and [keep]. *)
Definition progress_bar (w : World) (path : string)
    (package_filter : list string) (timeout : Z) : Generator SearchResult :=
  async_progressbar (lookups w path package_filter timeout)
    (Z.of_nat (List.length (refs_filtered w path package_filter)))
    "" 20 false.

(** The rows for [results], after the lines [out] already printed. *)
Definition report_loop (target : VersionPart) (results : list SearchResult)
    (out : list string) : list string * list FindUpdateCall :=
  let cols := compute_cols results in
  List.fold_left (report_step cols target)
                 (sorted (fun r => package (ref r)) results)
                 (out, []).

(** [run(path, package_filter=..., target=..., timeout=...)] *)
Definition run (w : World) (path : string) (package_filter : list string)
    (target : VersionPart) (timeout : Z) : RunResult :=
  let conanfile := find_conanfile w path in
  let out := ["Checking " ++ colored conanfile [Colors.BOLD]] in
  match collect (progress_bar w path package_filter timeout) [] with
  | (Raised e, err) => mkRun out err [] (Raised e)
  | (Ok results, err) =>
      let st := report_loop target results out in
      mkRun (fst st) err (snd st) (Ok tt)
  end.

(* ---------------------------------------------------------------- *)
(** *** [main] *)

(** [l[-n:]]: the last [n] elements, or all of [l] when it is shorter. *)
Definition last_items {A : Type} (n : nat) (l : list A) : list A :=
  List.skipn (List.length l - n) l.

(** [l[:-n]]: [l] without its last [n] elements. *)
Definition but_last {A : Type} (n : nat) (l : list A) : list A :=
  List.firstn (List.length l - n) l.

(** [list_choices(it)] of [main], on strings:
    [last] is [" or ".join(items[-2:])], and the result joins the
    elements of [items[:-2]] and [last] with [", "]. *)
Definition list_choices (items : list string) : string :=
  let last := PyStr.join " or " (last_items 2 items) in
  PyStr.join ", " (but_last 2 items ++ [last])%list.

(** The parsed command line, [args]. *)
Record Args : Type := mkArgs {
  args_filter : list string;
  args_cwd : string;
  args_target : string;
  args_timeout : Z
}.

Definition target_choices : list (string * VersionPart) :=
  [("major", MAJOR); ("minor", MINOR); ("patch", PATCH)].

(** [d.get(k, default)] *)
Fixpoint dict_get {V : Type} (d : list (string * V)) (k : string)
    (default : V) : V :=
  match d with
  | [] => default
  | (k', v) :: d' => if String.eqb k' k then v else dict_get d' k default
  end.

(** The [try] statement of [main]: a [KeyboardInterrupt] that leaves
    [run] is caught and [main] returns; any other exception goes on. *)
Definition main (w : World) (args : Args) : RunResult :=
  let r :=
    run w (args_cwd args) (args_filter args)
        (dict_get target_choices (args_target args) MAJOR)
        (args_timeout args) in
  match outcome r with
  | Raised KeyboardInterrupt => mkRun (stdout r) (stderr r) (calls r) (Ok tt)
  | _ => r
  end.

(** The rows of the report: what [run] printed after its first line. *)
Definition report (r : RunResult) : list string := List.tl (stdout r).

End Main.

(* ================================================================== *)
(** ** The imported modules, as the specification describes them *)
(* ================================================================== *)

Module SpecImports.

(** Modelled from the spec: [Version] of [version.py]: "an ordered
    sequence of numeric release components", "an optional pre-release
    label" and "an optional build/metadata suffix". *)
Record SVersion : Type := mkVersion {
  release : list nat;
  prerelease : option string;
  build : option string
}.

Definition of_nat (n : nat) : string := NilZero.string_of_uint (Nat.to_uint n).

Definition str (v : SVersion) : string :=
  PyStr.join "." (List.map of_nat (release v))
    ++ match prerelease v with Some p => "-" ++ p | None => "" end
    ++ match build v with Some b => "+" ++ b | None => "" end.

Definition pad (n : nat) (l : list nat) : list nat :=
  (l ++ List.repeat O (n - List.length l))%list.

Fixpoint compare_components (a b : list nat) : comparison :=
  match a, b with
  | x :: a', y :: b' =>
      match Nat.compare x y with
      | Eq => compare_components a' b'
      | c => c
      end
  | _, _ => Eq
  end.

(** Modelled from the spec: the order of versions: "first by numeric
    components (shorter sequences are zero-padded for comparison), then
    by pre-release presence/content", a pre-release "ordered before any
    release with the same numeric components"; the build suffix is "not
    significant". *)
Definition compare (a b : SVersion) : comparison :=
  let n := Nat.max (List.length (release a)) (List.length (release b)) in
  match compare_components (pad n (release a)) (pad n (release b)) with
  | Eq =>
      match prerelease a, prerelease b with
      | None, None => Eq
      | Some _, None => Lt
      | None, Some _ => Gt
      | Some p, Some q => String.compare p q
      end
  | c => c
  end.

Definition gtb (a b : SVersion) : bool :=
  match compare a b with Gt => true | _ => false end.

Inductive Op : Type := OpGe | OpGt | OpLe | OpLt | OpEq.

(** Modelled from the spec: [VersionRange] of [version.py]: "explicit
    comparator lists", "combinable with logical AND within one range";
    [range_text] is the expression as it was written. *)
Record SRange : Type := mkRange {
  range_text : string;
  comparators : list (Op * SVersion)
}.

Definition holds (v : SVersion) (c : Op * SVersion) : bool :=
  match fst c, compare v (snd c) with
  | OpGe, (Gt | Eq) => true
  | OpGt, Gt => true
  | OpLe, (Lt | Eq) => true
  | OpLt, Lt => true
  | OpEq, Eq => true
  | _, _ => false
  end.

Definition satisfies (r : SRange) (v : SVersion) : bool :=
  List.forallb (holds v) (comparators r).

(** The greatest of the candidates [keep] accepts; of two that compare
    equal the earlier stays. *)
Fixpoint greatest (keep : SVersion -> bool) (best : option SVersion)
    (candidates : list (VersionLike SVersion)) : option SVersion :=
  match candidates with
  | [] => best
  | Semantic v :: rest =>
      if keep v then
        match best with
        | Some b => greatest keep (if gtb v b then Some v else best) rest
        | None => greatest keep (Some v) rest
        end
      else greatest keep best rest
  | Opaque _ :: rest => greatest keep best rest
  end.

(** Modelled from the spec: [VersionRange.max_satifies]: it "filters
    candidates to those that are semantic Versions satisfying the range,
    returns the maximum by Version ordering, or none". *)
Definition max_satisfying (r : SRange) (candidates : list (VersionLike SVersion))
  : option (VersionLike SVersion) :=
  option_map (@Semantic SVersion) (greatest (satisfies r) None candidates).

Definition component (k : nat) (v : SVersion) : nat := List.nth k (release v) O.

Definition within (target : VersionPart) (current v : SVersion) : bool :=
  match target with
  | MAJOR => true
  | MINOR => Nat.eqb (component 0 v) (component 0 current)
  | PATCH => Nat.eqb (component 0 v) (component 0 current)
             && Nat.eqb (component 1 v) (component 1 current)
  end.

Definition is_prerelease (v : SVersion) : bool :=
  match prerelease v with Some _ => true | None => false end.

(** Modelled from the spec: [find_update] of [version.py], steps 2 to 4
    of the update selector: no update for a current value that is not
    semantic; else the greatest semantic candidate that is strictly
    greater, changes nothing above the target, and is a pre-release only
    if the current version is one. *)
Definition find_update (current : VersionLike SVersion)
    (candidates : list (VersionLike SVersion)) (target : VersionPart)
  : option SVersion :=
  match current with
  | Opaque _ => None
  | Semantic cur =>
      greatest
        (fun v => gtb v cur && within target cur v
                  && (is_prerelease cur || negb (is_prerelease v)))
        None candidates
  end.

(** A pattern with the wildcards [*] and [?] against a whole name. *)
Fixpoint glob (p : string) : string -> bool :=
  match p with
  | EmptyString => fun s => match s with EmptyString => true | _ => false end
  | String c p' =>
      if Ascii.eqb c "*" then
        fix star (s : string) : bool :=
          glob p' s || match s with String _ s' => star s' | EmptyString => false end
      else if Ascii.eqb c "?" then
        fun s => match s with String _ s' => glob p' s' | EmptyString => false end
      else
        fun s => match s with
                 | String d s' => Ascii.eqb c d && glob p' s'
                 | EmptyString => false
                 end
  end.

Definition negative (p : string) : option string :=
  match p with
  | String c p' => if Ascii.eqb c "!" then Some p' else None
  | EmptyString => None
  end.

(** Modelled from the spec: [matches_any] of [filter.py]: "the name is
    included if (no positive patterns exist, or it matches at least one
    positive pattern) AND it does not match any negative pattern". *)
Definition matches_any (name : string) (patterns : list string) : bool :=
  let pos := List.filter (fun p => match negative p with None => true | _ => false end) patterns in
  let neg := List.flat_map (fun p => match negative p with Some q => [q] | None => [] end) patterns in
  (match pos with [] => true | _ => List.existsb (fun p => glob p name) pos end)
  && negb (List.existsb (fun p => glob p name) neg).

#[export] Instance imports : Imports :=
  Build_Imports str range_text max_satisfying find_update matches_any.

(** Some versions, a range and a registry to run the program on. *)
Definition v (a b c : nat) : SVersion := mkVersion [a; b; c] None None.
Definition sem (a b c : nat) : VersionLike SVersion := Semantic (v a b c).

Definition caret_1_2_0 : SRange :=
  mkRange "^1.2.0" [(OpGe, v 1 2 0); (OpLt, v 2 0 0)].

Definition caret_9_0_0 : SRange :=
  mkRange "^9.0.0" [(OpGe, v 9 0 0); (OpLt, v 10 0 0)].

Definition registry : list (VersionLike SVersion) :=
  [sem 1 2 0; sem 1 3 5; sem 2 0 0].

Definition requirements : list RequirementRef :=
  [mkRef "zlib" (Like (sem 1 2 3)); mkRef "boost" (Range caret_1_2_0);
   mkRef "fmt" (Like (Opaque "main")); mkRef "abseil" (Like (sem 2 0 0));
   mkRef "qt" (Range caret_9_0_0)].

(** A world with these requirements where every package has the versions
    of [registry]; the lookups complete in the order [order] gives and
    end as [how] says. *)
Definition recipe (path : string) : string := path ++ "/conanfile.txt".

Definition inspect (conanfile : string) : list RequirementRef := requirements.

Definition search (order : list RequirementRef -> list RequirementRef)
    (how : Ending) (refs : list RequirementRef) (timeout : Z)
  : AsyncIterator SearchResult :=
  mkIter (List.map (fun r => mkResult r registry) (order refs)) how.

Definition world (order : list RequirementRef -> list RequirementRef)
    (how : Ending) : World :=
  mkWorld recipe inspect (search order how).

(** The lookups complete in the reverse of the order of the recipe. *)
Definition sample : World := world (@List.rev RequirementRef) Exhausted.

Definition sample_results : list SearchResult :=
  List.map (fun r => mkResult r registry) (List.rev requirements).

Definition sample_stderr : File :=
  Eval vm_compute in
    snd (bar_loop 5 "" 20 false 0 (items (lookups sample "." [] 30)) Exhausted []).

(** The user interrupts the run after two of the lookups. *)
Definition interrupted : World :=
  world (List.firstn 2) (Fails KeyboardInterrupt).

Definition sample_args : Args := mkArgs [] "." "minor" 30.

Definition qt : SearchResult := mkResult (mkRef "qt" (Range caret_9_0_0)) registry.
Definition fmt : SearchResult := mkResult (mkRef "fmt" (Like (Opaque "main"))) registry.
Definition boost : SearchResult := mkResult (mkRef "boost" (Range caret_1_2_0)) registry.

End SpecImports.

(* ================================================================== *)
(** * Properties *)
(* ================================================================== *)

Unset Implicit Arguments.

(** ** Strings *)

Lemma append_assoc (a b c : string) : (a ++ b) ++ c = a ++ (b ++ c).
Proof. induction a as [|x a IH]; simpl; [reflexivity | now rewrite IH]. Qed.

Lemma append_nil_r (a : string) : a ++ "" = a.
Proof. induction a as [|x a IH]; simpl; [reflexivity | now rewrite IH]. Qed.

Lemma take_drop (n : nat) (s : string) : PyStr.take n s ++ PyStr.drop n s = s.
Proof.
  revert s; induction n as [|n IH]; intros [|c s]; simpl; try reflexivity.
  now rewrite IH.
Qed.

Lemma no_esc_take (n : nat) (s : string) :
  no_esc s = true -> no_esc (PyStr.take n s) = true.
Proof.
  revert s; induction n as [|n IH]; intros [|c s]; simpl; auto.
  intros H; apply andb_true_iff in H as [Hc Hs].
  now rewrite Hc, (IH _ Hs).
Qed.

Lemma no_esc_drop (n : nat) (s : string) :
  no_esc s = true -> no_esc (PyStr.drop n s) = true.
Proof.
  revert s; induction n as [|n IH]; intros [|c s]; simpl; auto.
  intros H; apply andb_true_iff in H as [_ Hs]; auto.
Qed.

(** ** [highlight_version_diff] *)

(** The search for the first difference, one character at a time. *)
Lemma find_enumerate_succ (P : ascii * ascii -> bool)
    (l : list (ascii * ascii)) (n : nat) :
  option_map fst (find (fun '(_, p) => P p) (PyStr.enumerate_from (S n) l))
  = option_map S
      (option_map fst (find (fun '(_, p) => P p) (PyStr.enumerate_from n l))).
Proof.
  revert n; induction l as [|p l IH]; intros n; simpl; [reflexivity|].
  destruct (P p); simpl; [reflexivity | apply IH].
Qed.

Lemma i_first_diff_cons (a b : ascii) (version compare : string) :
  i_first_diff (String a version) (String b compare)
  = if Ascii.eqb a b then option_map S (i_first_diff version compare)
    else Some O.
Proof.
  unfold i_first_diff, PyStr.enumerate; simpl.
  destruct (Ascii.eqb a b); simpl; [|reflexivity].
  apply (find_enumerate_succ (fun '(s1, s2) => negb (Ascii.eqb s1 s2))).
Qed.

Lemma i_first_diff_agree (version compare : string) :
  agree version compare = true <-> i_first_diff version compare = None.
Proof.
  revert compare; induction version as [|a v IH]; intros [|b c];
    try (split; reflexivity).
  rewrite i_first_diff_cons; simpl.
  destruct (Ascii.eqb a b); simpl.
  - rewrite IH. destruct (i_first_diff v c); simpl; split; congruence.
  - split; discriminate.
Qed.

Lemma agree_refl (s : string) : agree s s = true.
Proof.
  induction s as [|a s IH]; simpl; [reflexivity|].
  now rewrite Ascii.eqb_refl, IH.
Qed.

Lemma agree_prefix_l (a b : string) : String.prefix a b = true -> agree a b = true.
Proof.
  revert b; induction a as [|x a IH]; intros [|y b]; simpl; try congruence.
  destruct (ascii_dec x y) as [->|Hne]; [|discriminate].
  rewrite Ascii.eqb_refl; simpl; apply IH.
Qed.

Lemma agree_sym (a b : string) : agree a b = agree b a.
Proof.
  revert b; induction a as [|x a IH]; intros [|y b]; simpl; try reflexivity.
  now rewrite Ascii.eqb_sym, IH.
Qed.

(** Without a difference the version comes back as it is. *)
Lemma highlight_version_diff_agree (version compare highlight : string) :
  agree version compare = true ->
  highlight_version_diff version compare highlight = version.
Proof.
  intros H; apply i_first_diff_agree in H.
  unfold highlight_version_diff; now rewrite H.
Qed.

(** The shape of the result: the version itself, or the version with the
    colour code put in at some place and [RESET] at the end. *)
Lemma highlight_version_diff_shape (version compare highlight : string) :
  highlight_version_diff version compare highlight = version
  \/ exists i : nat,
       highlight_version_diff version compare highlight
       = PyStr.take i version
           ++ highlight ++ PyStr.drop i version ++ Colors.RESET.
Proof.
  unfold highlight_version_diff.
  destruct (i_first_diff version compare) as [i|]; [right; exists i | now left].
  unfold colored, PyStr.join; simpl. reflexivity.
Qed.

(** ** Removing colour codes *)

Lemma strip_plain_app (a rest : string) :
  no_esc a = true ->
  strip_from Plain (a ++ rest) = a ++ strip_from Plain rest.
Proof.
  induction a as [|c a IH]; simpl; [reflexivity|].
  intros H; apply andb_true_iff in H as [Hc Ha].
  apply negb_true_iff in Hc; rewrite Hc, (IH Ha); reflexivity.
Qed.

Lemma strip_red (rest : string) :
  strip_from Plain (Colors.RED ++ rest) = strip_from Plain rest.
Proof. reflexivity. Qed.

Lemma strip_reset : strip_from Plain Colors.RESET = "".
Proof. reflexivity. Qed.

(** Removing the colour codes undoes the highlighting of a text that has
    no escape character of its own. *)
Lemma strip_highlight_version_diff (version compare : string) :
  no_esc version = true ->
  strip_ansi (highlight_version_diff version compare Colors.RED) = version.
Proof.
  intros Hplain. unfold strip_ansi.
  destruct (highlight_version_diff_shape version compare Colors.RED)
    as [-> | [i ->]].
  - rewrite <- (append_nil_r version) at 1.
    rewrite strip_plain_app by assumption. simpl. apply append_nil_r.
  - rewrite strip_plain_app by (now apply no_esc_take).
    rewrite strip_red.
    rewrite strip_plain_app by (now apply no_esc_drop).
    rewrite strip_reset, append_nil_r. apply take_drop.
Qed.

(** C8, as amended.  Removing the colour codes from
    [highlight_version_diff version compare] gives back the version,
    for every version string that holds no escape character and every
    string to compare it with; and for all strings, when the two are
    equal, or one is the beginning of the other, or they differ at no
    position both have, the result is the version itself, with no colour
    code. *)
Theorem highlight_version_diff_strip (version compare : string) :
  (no_esc version = true ->
   strip_ansi (highlight_version_diff version compare Colors.RED) = version)
  /\ (version = compare \/ String.prefix version compare = true
      \/ String.prefix compare version = true
      \/ agree version compare = true ->
      highlight_version_diff version compare Colors.RED = version).
Proof.
  split.
  - intros Hplain. now apply strip_highlight_version_diff.
  - intros H; apply highlight_version_diff_agree.
    destruct H as [-> | [H | [H | H]]].
    + apply agree_refl.
    + now apply agree_prefix_l.
    + rewrite agree_sym. now apply agree_prefix_l.
    + assumption.
Qed.

Lemma highlight_version_diff_strip_witness :
  no_esc "1.3.5" = true
  /\ strip_ansi (highlight_version_diff "1.3.5" "1.2.0" Colors.RED) = "1.3.5"
  /\ highlight_version_diff "1.3" "1.3.5" Colors.RED = "1.3".
Proof.
  split; [reflexivity|]. split.
  - exact (proj1 (highlight_version_diff_strip "1.3.5" "1.2.0") eq_refl).
  - apply (proj2 (highlight_version_diff_strip "1.3" "1.3.5")).
    right; left; reflexivity.
Defined.

(** C8 as it is written fails: a version string may itself hold a colour
    code, and removing the codes from the result then removes that one
    as well. *)
Lemma highlight_version_diff_strip_counterexample :
  strip_ansi (highlight_version_diff ("1." ++ Colors.BOLD ++ "5") "1.4" Colors.RED)
  <> "1." ++ Colors.BOLD ++ "5".
Proof. vm_compute. discriminate. Qed.

(** ** The progress bar *)

Section ProgressBarFacts.

Context {A : Type}.
Implicit Types (g : Generator A) (file : File) (it : AsyncIterator A).

Lemma drain_step g file :
  drain g file =
  match anext g file with
  | (Yielded item, g', file') =>
      let '(later, file'') := drain g' file' in
      (mkIter (item :: items later) (ending later), file'')
  | (Stopped, _, file') => (mkIter [] Exhausted, file')
  | (Threw e, _, file') => (mkIter [] (Fails e), file')
  end.
Proof.
  simp drain.
  destruct (inspect (anext g file)) as [[[r g'] file'] E].
  destruct r as [item| |e]; simpl; [|now rewrite E..].
  transitivity
    (let '(later, file'') := drain g' file' in
     (mkIter (item :: items later) (ending later), file'')).
  - destruct (drain g' file'); reflexivity.
  - now rewrite E.
Qed.

Lemma anext_running g file :
  g_pc g <> AtEnd -> anext g file = show_then_pull g (next_count g) file.
Proof. unfold anext, next_count; destruct (g_pc g); congruence. Qed.

(** In its range [show] writes. *)
Lemma show_ok (total : Z) (desc : string) (size j : Z) :
  0 <= j <= total -> exists txt, show total desc size j = Ok txt.
Proof.
  intros [H0 Ht]; unfold show, py_assert.
  apply Z.leb_le in H0; apply Z.leb_le in Ht; rewrite H0, Ht; simpl.
  destruct (0 <? total) eqn:Hpos; simpl; [|eauto].
  apply Z.ltb_lt in Hpos. unfold int_truediv.
  destruct (total =? 0) eqn:Hz; [apply Z.eqb_eq in Hz; lia|].
  simpl; eauto.
Qed.

(** Whatever its arguments, [show] does not divide by zero. *)
Lemma show_no_zero_division (total : Z) (desc : string) (size j : Z) :
  show total desc size j <> Raised ZeroDivisionError.
Proof.
  unfold show, py_assert.
  destruct ((0 <=? j) && (j <=? total)); simpl; [|discriminate].
  destruct (0 <? total) eqn:Hpos; simpl; [|discriminate].
  apply Z.ltb_lt in Hpos. unfold int_truediv.
  destruct (total =? 0) eqn:Hz; [apply Z.eqb_eq in Hz; lia|].
  simpl; discriminate.
Qed.

(** The generator consumed to its end is the loop. *)
Lemma drain_bar_loop g file :
  g_pc g <> AtEnd ->
  drain g file
  = bar_loop (g_total g) (g_desc g) (g_size g) (g_keep g) (next_count g)
             (items (g_it g)) (ending (g_it g)) file.
Proof.
  remember (items (g_it g)) as todo eqn:Htodo.
  revert g file Htodo; induction todo as [|item rest IH]; intros g file Htodo Hpc;
    rewrite drain_step, (anext_running g file Hpc); unfold show_then_pull; simpl;
    destruct (show _ _ _ _) as [txt|e]; try reflexivity;
    unfold pull; rewrite <- Htodo.
  - destruct (ending (g_it g)); reflexivity.
  - rewrite (IH (set_state g AtYield (next_count g)
                           (mkIter rest (ending (g_it g)))));
      [reflexivity | reflexivity | discriminate].
Qed.

Lemma drain_async_progressbar it total desc size keep file :
  drain (async_progressbar it total desc size keep) file
  = bar_loop total desc size keep 0 (items it) (ending it) file.
Proof. rewrite drain_bar_loop; [reflexivity | discriminate]. Qed.

(** The loop does not look at the items: it does to their images under
    [f] what it does to them. *)
Lemma bar_loop_map {B : Type} (f : A -> B) total desc size keep
    (todo : list A) how :
  forall i file,
    bar_loop total desc size keep i (List.map f todo) how file
    = (mkIter (List.map f (items (fst (bar_loop total desc size keep i todo how file))))
              (ending (fst (bar_loop total desc size keep i todo how file))),
       snd (bar_loop total desc size keep i todo how file)).
Proof.
  induction todo as [|item rest IH]; intros i file; simpl;
    destruct (show total desc size i) as [txt|e]; try reflexivity.
  - destruct how; reflexivity.
  - rewrite IH. destruct (bar_loop total desc size keep (i + 1) rest how _).
    reflexivity.
Qed.

(** A loop left by exhaustion has yielded every item. *)
Lemma bar_loop_exhausted total desc size keep (todo : list A) how :
  forall i file,
    ending (fst (bar_loop total desc size keep i todo how file)) = Exhausted ->
    items (fst (bar_loop total desc size keep i todo how file)) = todo.
Proof.
  induction todo as [|item rest IH]; intros i file; simpl;
    destruct (show total desc size i) as [txt|e]; try discriminate.
  - destruct how; reflexivity.
  - specialize (IH (i + 1) (file ++ [Write txt; Flush])%list).
    destruct (bar_loop total desc size keep (i + 1) rest how _); simpl in *.
    intros H; now rewrite (IH H).
Qed.

(** A loop whose counts stay within [total] yields every item and ends
    as the iterator does. *)
Lemma bar_loop_fits total desc size keep (todo : list A) how :
  forall i file,
    0 <= i -> i + Z.of_nat (List.length todo) <= total ->
    fst (bar_loop total desc size keep i todo how file) = mkIter todo how.
Proof.
  induction todo as [|item rest IH]; intros i file Hi Hfit; simpl in *;
    destruct (@show_ok total desc size i) as [txt ->]; try lia.
  - destruct how; reflexivity.
  - specialize (IH (i + 1) (file ++ [Write txt; Flush])%list).
    destruct (bar_loop total desc size keep (i + 1) rest how _); simpl in *.
    rewrite IH by lia. reflexivity.
Qed.

End ProgressBarFacts.

(** ** The generator, resumption by resumption *)

Section ResumeFacts.

Context {A : Type}.
Implicit Types (g : Generator A) (file : File) (it : AsyncIterator A).

Lemma resume_add (a b : nat) :
  forall g file,
    resume (a + b) g file
    = let '(g', file') := resume a g file in resume b g' file'.
Proof.
  induction a as [|a IH]; intros g file; simpl; [reflexivity|].
  destruct (anext g file) as [[r g1] file1]. apply IH.
Qed.

Lemma resume_snoc (k : nat) g file :
  resume (S k) g file
  = let '(g', file') := resume k g file in
    let '(_, g'', file'') := anext g' file' in (g'', file'').
Proof.
  replace (S k) with (k + 1)%nat by lia. rewrite resume_add.
  destruct (resume k g file) as [g' file']; simpl.
  destruct (anext g' file') as [[r g''] file'']; reflexivity.
Qed.

Lemma resume_at_end (k : nat) :
  forall g file, g_pc g = AtEnd -> resume k g file = (g, file).
Proof.
  induction k as [|k IH]; intros g file Hpc; simpl; [reflexivity|].
  unfold anext; rewrite Hpc. now apply IH.
Qed.

(** One resumption of a generator that has not ended, when the count is
    in the range of [show]: the count is stored in [i], and the iterator
    decides between an item and the end. *)
Lemma anext_state g file :
  g_pc g <> AtEnd -> 0 <= next_count g <= g_total g ->
  let r := fst (fst (anext g file)) in
  let g1 := snd (fst (anext g file)) in
  g_i g1 = next_count g /\ g_total g1 = g_total g
  /\ match items (g_it g) with
     | item :: rest =>
         r = Yielded item /\ g_pc g1 = AtYield
         /\ g_it g1 = mkIter rest (ending (g_it g))
     | [] =>
         g_pc g1 = AtEnd
         /\ r = match ending (g_it g) with
                | Exhausted => Stopped
                | Fails e => Threw e
                end
     end.
Proof.
  intros Hpc Hrange. rewrite (anext_running g file Hpc).
  unfold show_then_pull.
  destruct (@show_ok (g_total g) (g_desc g) (g_size g) (next_count g) Hrange)
    as [txt ->].
  unfold pull. destruct (items (g_it g)) as [|item rest]; simpl.
  - destruct (ending (g_it g)); simpl; auto.
  - auto.
Qed.

(** [k] resumptions that all find an item: the generator has not ended,
    its next count is [k] further, and [k] items are gone. *)
Lemma resume_running (k : nat) :
  forall g file,
    g_pc g <> AtEnd -> 0 <= next_count g ->
    next_count g + Z.of_nat k <= g_total g + 1 ->
    (k <= List.length (items (g_it g)))%nat ->
    let g' := fst (resume k g file) in
    g_pc g' <> AtEnd
    /\ next_count g' = next_count g + Z.of_nat k
    /\ items (g_it g') = List.skipn k (items (g_it g))
    /\ ending (g_it g') = ending (g_it g)
    /\ g_total g' = g_total g.
Proof.
  induction k as [|k IH]; intros g file Hpc H0 Hfit Hlen.
  - simpl. repeat split; auto. lia.
  - simpl resume.
    assert (Hrange : 0 <= next_count g <= g_total g) by lia.
    pose proof (@anext_state g file Hpc Hrange) as Hstep.
    destruct (anext g file) as [[r g1] file1]; simpl in Hstep.
    destruct Hstep as (Hi & Htot & Hitems).
    destruct (items (g_it g)) as [|item rest] eqn:Hit; [simpl in Hlen; lia|].
    destruct Hitems as (_ & Hpc1 & Hit1).
    assert (Hnext : next_count g1 = next_count g + 1)
      by (unfold next_count at 1; rewrite Hpc1, Hi; reflexivity).
    destruct (IH g1 file1) as (P1 & P2 & P3 & P4 & P5).
    + rewrite Hpc1; discriminate.
    + lia.
    + rewrite Hnext, Htot. lia.
    + rewrite Hit1; simpl in *; lia.
    + repeat split; auto.
      * rewrite P2, Hnext. lia.
      * rewrite P3, Hit1. reflexivity.
      * rewrite P4, Hit1. reflexivity.
      * congruence.
Qed.

(** The state after resumption number [k + 1] of a fresh generator whose
    iterator has at least [k] items and whose total admits the count [k]. *)
Lemma resume_fresh (k : nat) it total desc size keep file :
  (k <= List.length (items it))%nat -> Z.of_nat k <= total ->
  let g0 := async_progressbar it total desc size keep in
  let before := resume k g0 file in
  let r := fst (fst (anext (fst before) (snd before))) in
  let g := fst (resume (S k) g0 file) in
  g_i g = Z.of_nat k
  /\ match List.skipn k (items it) with
     | item :: _ => r = Yielded item /\ g_pc g = AtYield
     | [] => g_pc g = AtEnd
             /\ r = match ending it with
                    | Exhausted => Stopped
                    | Fails e => Threw e
                    end
     end.
Proof.
  intros Hlen Htot g0 before r g. subst r g.
  rewrite resume_snoc. subst before.
  destruct (@resume_running k g0 file) as (P1 & P2 & P3 & P4 & P5);
    try (simpl; first [discriminate | lia]).
  destruct (resume k g0 file) as [g' file']; simpl in *.
  assert (Hrange : 0 <= next_count g' <= g_total g')
    by (rewrite P2, P5; unfold next_count; simpl; lia).
  pose proof (@anext_state g' file' P1 Hrange) as Hstep.
  destruct (anext g' file') as [[r g''] file'']; simpl in *.
  destruct Hstep as (Hi & _ & Hitems). rewrite P3, P4 in Hitems.
  split; [rewrite Hi, P2; unfold next_count; simpl; lia|].
  destruct (List.skipn k (items it)); tauto.
Qed.

End ResumeFacts.

(** C9, as amended.  [async_progressbar] preserves the items of every
    finite iterator that yields at most [total] items: consumed to its
    end, the generator yields the items of the wrapped iterator, in the
    same order and number, and ends as the iterator ends, whatever [desc],
    [size], [keep] and the file are. *)
Theorem async_progressbar_preserves_items {A : Type} (it : AsyncIterator A)
    (total : Z) (desc : string) (size : Z) (keep : bool) (file : File) :
  Z.of_nat (List.length (items it)) <= total ->
  fst (drain (async_progressbar it total desc size keep) file) = it.
Proof.
  intros Hfit. rewrite drain_async_progressbar.
  rewrite bar_loop_fits by lia. destruct it; reflexivity.
Qed.

Lemma async_progressbar_preserves_items_witness :
  Z.of_nat (List.length (items (mkIter ["zlib"; "fmt"; "boost"] Exhausted))) <= 3
  /\ fst (drain (async_progressbar (mkIter ["zlib"; "fmt"; "boost"] Exhausted)
                                   3 "conan " 10 true) [Write "$ "])
     = mkIter ["zlib"; "fmt"; "boost"] Exhausted.
Proof.
  split; [simpl; lia|].
  apply async_progressbar_preserves_items; simpl; lia.
Defined.

(** C9 as it is written fails: when the iterator has more items than
    [total], the assertion in [show] stops the generator after item
    number [total + 1]. *)
Lemma async_progressbar_preserves_items_counterexample :
  fst (drain (async_progressbar (mkIter ["zlib"; "fmt"] Exhausted) 0 "" 20 false) [])
  = mkIter ["zlib"] (Fails AssertionError)
  /\ items (fst (drain (async_progressbar (mkIter ["zlib"; "fmt"] Exhausted)
                                           0 "" 20 false) []))
     <> items (mkIter ["zlib"; "fmt"] Exhausted).
Proof. split; [reflexivity | vm_compute; discriminate]. Qed.

(** C10.  When [total] is not negative and the wrapped iterator yields at
    most [total] items: [show] writes for every count from 0 to [total];
    it divides by zero for no count at all, since the test [total > 0]
    guards both divisions; and no resumption of the generator raises
    anything but what the wrapped iterator raised, so the assertion
    [0 <= j <= total] never fails. *)
Theorem show_assertion_never_fails {A : Type} (it : AsyncIterator A)
    (total : Z) (desc : string) (size : Z) (keep : bool) (file : File) :
  0 <= total ->
  Z.of_nat (List.length (items it)) <= total ->
  (forall j, 0 <= j <= total -> exists txt, show total desc size j = Ok txt)
  /\ (forall j, show total desc size j <> Raised ZeroDivisionError)
  /\ (forall k e,
        resumption k (async_progressbar it total desc size keep) file = Threw e ->
        ending it = Fails e).
Proof.
  intros Htotal Hfit. split; [|split].
  - intros j Hj. now apply show_ok.
  - intros j. apply show_no_zero_division.
  - intros k e. unfold resumption.
    set (g0 := async_progressbar it total desc size keep).
    set (n := List.length (items it)) in *.
    destruct (Nat.le_gt_cases (Nat.pred k) n) as [Hle | Hgt].
    + destruct (@resume_fresh A (Nat.pred k) it total desc size keep file)
        as (_ & Hcase); [assumption | lia |].
      fold g0 in Hcase.
      destruct (resume (Nat.pred k) g0 file) as [g' file']; simpl in Hcase.
      destruct (List.skipn (Nat.pred k) (items it)).
      * destruct Hcase as (_ & ->).
        destruct (ending it); [discriminate | congruence].
      * destruct Hcase as (-> & _). discriminate.
    + replace (Nat.pred k) with (S n + (Nat.pred k - S n))%nat by lia.
      rewrite resume_add.
      destruct (@resume_fresh A n it total desc size keep file)
        as (_ & Hcase); [reflexivity | lia |].
      fold g0 in Hcase. unfold n in Hcase at 1.
      rewrite List.skipn_all in Hcase. destruct Hcase as (Hend & _).
      destruct (resume (S n) g0 file) as [g1 file1]; simpl in Hend.
      rewrite (resume_at_end _ _ file1 Hend).
      unfold anext; rewrite Hend; simpl. discriminate.
Qed.

Lemma show_assertion_never_fails_witness :
  (exists txt, show 2 "" 20 1 = Ok txt)
  /\ resumption 3 (async_progressbar (mkIter ["zlib"; "fmt"] Exhausted) 2 "" 20 false) []
     = Stopped.
Proof.
  assert (H0 : 0 <= 2) by lia.
  assert (H1 : Z.of_nat (List.length (items (mkIter ["zlib"; "fmt"] Exhausted))) <= 2)
    by (simpl; lia).
  pose proof (@show_assertion_never_fails string (mkIter ["zlib"; "fmt"] Exhausted)
                2 "" 20 false [] H0 H1) as (Hshow & _ & _).
  split; [apply Hshow; lia | reflexivity].
Defined.

(** ** The order of strings *)

Lemma ltb_compare (a b : string) :
  String.ltb a b = true <-> String.compare a b = Lt.
Proof. unfold String.ltb. destruct (String.compare a b); split; congruence. Qed.

Lemma compare_antisym (a b : string) :
  String.compare b a = CompOpp (String.compare a b).
Proof. exact (String_as_OT.cmp_antisym b a). Qed.

Lemma leb_not_ltb (a b : string) : String.leb a b = negb (String.ltb b a).
Proof.
  unfold String.leb, String.ltb. rewrite (compare_antisym a b).
  destruct (String.compare a b); reflexivity.
Qed.

Lemma ltb_trans (a b c : string) :
  String.ltb a b = true -> String.ltb b c = true -> String.ltb a c = true.
Proof.
  rewrite !ltb_compare. intros Hab Hbc.
  apply String_as_OT.cmp_lt in Hab, Hbc. apply String_as_OT.cmp_lt.
  exact (String_as_OT.lt_trans a b c Hab Hbc).
Qed.

Lemma ltb_asym (a b : string) :
  String.ltb a b = true -> String.ltb b a = false.
Proof.
  unfold String.ltb. rewrite (compare_antisym a b).
  destruct (String.compare a b); simpl; congruence.
Qed.

(** Of two different strings exactly one is smaller. *)
Lemma ltb_connex (a b : string) :
  a <> b -> String.ltb a b = negb (String.ltb b a).
Proof.
  intros Hne. unfold String.ltb. rewrite (compare_antisym a b).
  destruct (String.compare a b) eqn:Hc; try reflexivity.
  apply String_as_OT.cmp_eq in Hc. contradiction.
Qed.

Lemma ltb_below (a x y : string) :
  String.ltb a x = true -> String.ltb a y = false -> String.ltb y x = true.
Proof.
  intros Hax Hay.
  destruct (string_dec a y) as [<- | Hne]; [assumption|].
  apply ltb_trans with a; [|assumption].
  rewrite (ltb_connex _ _ (not_eq_sym Hne)), Hay. reflexivity.
Qed.

Lemma leb_trans (a b c : string) :
  String.leb a b = true -> String.leb b c = true -> String.leb a c = true.
Proof.
  rewrite !leb_not_ltb, !negb_true_iff. intros Hba Hcb.
  destruct (String.ltb c a) eqn:Hca; [|reflexivity].
  rewrite (ltb_below _ _ _ Hca Hcb) in Hba. discriminate.
Qed.

(** ** [sorted] *)

Section SortedFacts.

Context {A : Type} (key : A -> string).

(** [a] does not come after [b]. *)
Let le (a b : A) : Prop := String.leb (key a) (key b) = true.

Lemma insert_by_perm (x : A) (l : list A) :
  Permutation (insert_by key x l) (x :: l).
Proof.
  induction l as [|y l IH]; simpl; [reflexivity|].
  destruct (String.ltb (key y) (key x)); [|reflexivity].
  rewrite IH. apply perm_swap.
Qed.

Lemma sorted_perm (l : list A) : Permutation (sorted key l) l.
Proof.
  induction l as [|x l IH]; simpl; [reflexivity|].
  rewrite insert_by_perm. now apply perm_skip.
Qed.

Lemma insert_by_sorted (x : A) (l : list A) :
  StronglySorted le l -> StronglySorted le (insert_by key x l).
Proof.
  induction 1 as [|y l Hl IH Hy]; simpl.
  - repeat constructor.
  - destruct (String.ltb (key y) (key x)) eqn:Hyx.
    + constructor; [assumption|].
      eapply Permutation_Forall; [symmetry; apply insert_by_perm|].
      constructor; [|assumption].
      unfold le. now rewrite leb_not_ltb, (ltb_asym _ _ Hyx).
    + assert (Hxy : le x y) by (unfold le; now rewrite leb_not_ltb, Hyx).
      constructor; [now constructor|].
      constructor; [assumption|].
      eapply Forall_impl; [|exact Hy].
      intros b Hb. exact (leb_trans _ _ _ Hxy Hb).
Qed.

Lemma sorted_is_sorted (l : list A) : StronglySorted le (sorted key l).
Proof.
  induction l as [|x l IH]; simpl; [constructor | now apply insert_by_sorted].
Qed.

Lemma filter_sorted (keep : A -> bool) (l : list A) :
  StronglySorted le l -> StronglySorted le (List.filter keep l).
Proof.
  induction 1 as [|y l Hl IH Hy]; simpl; [constructor|].
  destruct (keep y); [|assumption].
  constructor; [assumption|].
  apply Forall_forall. intros b Hb. apply List.filter_In in Hb as [Hb _].
  rewrite Forall_forall in Hy. now apply Hy.
Qed.

(** Two elements with different keys go in in either order. *)
Lemma insert_by_comm (x y : A) (l : list A) :
  key x <> key y ->
  insert_by key x (insert_by key y l) = insert_by key y (insert_by key x l).
Proof.
  intros Hne. pose proof (ltb_connex _ _ Hne) as Hxy.
  induction l as [|a l IH]; simpl.
  - rewrite Hxy. destruct (String.ltb (key y) (key x)); reflexivity.
  - destruct (String.ltb (key a) (key y)) eqn:Hay;
      destruct (String.ltb (key a) (key x)) eqn:Hax; simpl;
      rewrite ?Hay, ?Hax.
    + now rewrite IH.
    + rewrite (ltb_below _ _ _ Hay Hax). simpl. now rewrite ?Hay.
    + rewrite (ltb_below _ _ _ Hax Hay). simpl. now rewrite ?Hax.
    + rewrite Hxy. destruct (String.ltb (key y) (key x)); simpl;
        now rewrite ?Hay, ?Hax.
Qed.

(** With keys that are all different, the sorted list does not depend
    on the order of the input. *)
Lemma sorted_unique_keys (l1 l2 : list A) :
  Permutation l1 l2 -> NoDup (List.map key l1) ->
  sorted key l1 = sorted key l2.
Proof.
  induction 1 as [|x l1 l2 Hp IH|x y l|l1 l2 l3 H12 IH12 H23 IH23];
    intros Hnd; simpl in *.
  - reflexivity.
  - inversion Hnd; subst. now rewrite IH.
  - apply insert_by_comm.
    inversion Hnd as [|? ? Hnotin _]; subst.
    intros E. apply Hnotin. left. now symmetry.
  - rewrite IH12 by assumption. apply IH23.
    eapply Permutation_NoDup; [|exact Hnd].
    now apply Permutation_map.
Qed.

End SortedFacts.

Lemma fold_left_max_perm (l1 l2 : list Z) :
  Permutation l1 l2 ->
  forall a, List.fold_left Z.max l1 a = List.fold_left Z.max l2 a.
Proof.
  induction 1 as [|x l1 l2 Hp IH|x y l|l1 l2 l3 H12 IH12 H23 IH23];
    intros a; simpl.
  - reflexivity.
  - apply IH.
  - f_equal. lia.
  - now rewrite IH12.
Qed.

(** ** The report *)

Section ReportFacts.

Context {I : Imports}.

(** What one result adds to the report: nothing or one row. *)
Lemma report_step_fold (cols : Cols) (target : VersionPart)
    (results : list SearchResult) :
  forall out log,
    List.fold_left (report_step cols target) results (out, log)
    = ((out ++ List.flat_map
                 (fun r => if skip (verdict target r) then []
                           else [row cols r (verdict target r)]) results)%list,
       (log ++ List.flat_map (fun r => invoked (verdict target r)) results)%list).
Proof.
  induction results as [|r results IH]; intros out log; simpl.
  - now rewrite !List.app_nil_r.
  - unfold report_step at 2; simpl.
    destruct (skip (verdict target r)); rewrite IH; simpl;
      now rewrite <- ?List.app_assoc.
Qed.

Lemma verdict_current (target : VersionPart) (result : SearchResult) :
  current_version_resolved (verdict target result)
  = resolve_version (version (ref result)) (versions result).
Proof.
  unfold verdict.
  destruct (resolve_version _ _) as [current|]; [|reflexivity].
  destruct (truthy (Some current)); reflexivity.
Qed.

Lemma collect_async_progressbar {A : Type} (it : AsyncIterator A)
    (total : Z) (desc : string) (size : Z) (keep : bool) (file : File) :
  collect (async_progressbar it total desc size keep) file
  = match bar_loop total desc size keep 0 (items it) (ending it) file with
    | (mkIter got Exhausted, file') => (Ok got, file')
    | (mkIter _ (Fails e), file') => (Raised e, file')
    end.
Proof. unfold collect. now rewrite drain_async_progressbar. Qed.

(** A run whose lookups all came back prints its first line and then
    the rows. *)
Lemma run_completed (w : World) (path : string) (package_filter : list string)
    (target : VersionPart) (timeout : Z)
    (results : list SearchResult) (err : File) :
  collect (progress_bar w path package_filter timeout) [] = (Ok results, err) ->
  outcome (run w path package_filter target timeout) = Ok tt
  /\ report (run w path package_filter target timeout)
     = List.flat_map
         (fun r => if skip (verdict target r) then []
                   else [row (compute_cols results) r (verdict target r)])
         (sorted (fun r => package (ref r)) results).
Proof.
  intros Hcollect. unfold run, report. rewrite Hcollect.
  unfold report_loop. rewrite report_step_fold. simpl. auto.
Qed.

(** C1.  In a run whose lookups all came back, every collected result
    contributes to the report, in sorted order, either nothing or its
    one row; it contributes nothing exactly when its resolved current
    version is a semantic version and no update was computed.  So a
    result whose current version is unresolved or not semantic, or for
    which an update was found, has its row in the report. *)
Theorem report_drops_exactly_up_to_date (w : World) (path : string)
    (package_filter : list string) (target : VersionPart) (timeout : Z)
    (results : list SearchResult) (err : File) :
  collect (progress_bar w path package_filter timeout) [] = (Ok results, err) ->
  report (run w path package_filter target timeout)
  = List.flat_map
      (fun r =>
         let v := verdict target r in
         if is_semantic_version (current_version_resolved v)
            && match update_version v with None => true | Some _ => false end
         then []
         else [row (compute_cols results) r v])
      (sorted (fun r => package (ref r)) results)
  /\ forall r, List.In r results ->
       let v := verdict target r in
       current_version_resolved v = None
       \/ is_semantic_version (current_version_resolved v) = false
       \/ update_version v <> None ->
       List.In (row (compute_cols results) r v)
               (report (run w path package_filter target timeout)).
Proof.
  intros Hcollect.
  destruct (run_completed w path package_filter target timeout results err
                          Hcollect) as [_ Hreport].
  split; [exact Hreport|].
  intros r Hin v Hkeep. rewrite Hreport. apply List.in_flat_map.
  exists r. split.
  - eapply Permutation_in; [symmetry; apply sorted_perm | exact Hin].
  - fold v. unfold skip.
    destruct Hkeep as [Hnone | [Hopaque | Hupdate]].
    + rewrite Hnone. simpl. now left.
    + rewrite Hopaque. simpl. now left.
    + destruct (update_version v); [|contradiction].
      rewrite andb_false_r. now left.
Qed.

(** C2.  For a requirement declared with a range, [resolve_version] is
    [max_satifies] of the range on the semantic versions among the
    available ones; and when that is none, the loop body has no current
    version, computes no update and does not call [find_update]. *)
Theorem resolve_version_range (target : VersionPart) (name : string)
    (r : VersionRange) (available : list VLike) :
  resolve_version (Range r) available
  = max_satifies r
      (List.filter (fun v => is_semantic_version (Some v)) available)
  /\ (max_satifies r
        (List.filter (fun v => is_semantic_version (Some v)) available) = None ->
      let v := verdict target (mkResult (mkRef name (Range r)) available) in
      current_version_resolved v = None
      /\ update_version v = None
      /\ invoked v = []).
Proof.
  split; [reflexivity|].
  intros Hnone v.
  assert (E : resolve_version (Range r) available = None) by exact Hnone.
  subst v. unfold verdict. cbn [version ref versions]. rewrite E. auto.
Qed.

(** C6.  When the resolved current version is not a semantic version,
    the update column is the available versions joined with commas;
    when it is a semantic version and there is an update, the column is
    the update version, with what differs from the current version
    highlighted: apart from the colour codes it is the update version. *)
Theorem text_update_column_cases (current : option VLike)
    (update : option Version) (available : list VLike) :
  (is_semantic_version current = false ->
   text_update_column current update available
   = PyStr.join ", " (List.map like_str available))
  /\ (forall c u,
        current = Some (Semantic c) -> update = Some u ->
        text_update_column current update available
        = highlight_version_diff (version_str u) (version_str c) Colors.RED
        /\ (no_esc (version_str u) = true ->
            strip_ansi (text_update_column current update available)
            = version_str u)).
Proof.
  split.
  - intros Hopaque. unfold text_update_column. now rewrite Hopaque.
  - intros c u -> ->. unfold text_update_column; simpl.
    split; [reflexivity|].
    intros Hplain. now apply strip_highlight_version_diff.
Qed.

End ReportFacts.

(** ** The run *)

Section RunFacts.

Context {I : Imports}.

Lemma flat_map_filter {X Y : Type} (drop : X -> bool) (f : X -> Y)
    (l : list X) :
  List.flat_map (fun x => if drop x then [] else [f x]) l
  = List.map f (List.filter (fun x => negb (drop x)) l).
Proof.
  induction l as [|x l IH]; simpl; [reflexivity|].
  destruct (drop x); simpl; now rewrite IH.
Qed.

Lemma map_unit_length {X Y : Type} (l1 : list X) (l2 : list Y) :
  List.length l1 = List.length l2 ->
  List.map (fun _ => tt) l1 = List.map (fun _ => tt) l2.
Proof.
  revert l2; induction l1 as [|x l1 IH]; intros [|y l2] H; simpl in *;
    try discriminate; [reflexivity|].
  f_equal. apply IH. now injection H.
Qed.

Lemma compute_cols_perm (rs1 rs2 : list SearchResult) :
  Permutation rs1 rs2 -> compute_cols rs1 = compute_cols rs2.
Proof.
  intros Hp. unfold compute_cols, py_max.
  f_equal; [f_equal|]; apply fold_left_max_perm; now apply Permutation_map.
Qed.

(** The rows do not depend on the order of the collected results, when
    no two of them have the same package name. *)
Lemma report_loop_perm (target : VersionPart) (rs1 rs2 : list SearchResult)
    (out : list string) :
  Permutation rs1 rs2 ->
  NoDup (List.map (fun r => package (ref r)) rs1) ->
  report_loop target rs1 out = report_loop target rs2 out.
Proof.
  intros Hp Hnd. unfold report_loop.
  rewrite (compute_cols_perm rs1 rs2 Hp).
  now rewrite (sorted_unique_keys (fun r => package (ref r)) rs1 rs2 Hp Hnd).
Qed.

(** C3.  The progress bar of a run whose lookups yield [n] results, [n]
    being the number of filtered requirements: after resumption number
    [k + 1], when the consumer has taken [k] results and come back, the
    count [i] is [k]; so it is 0 at first and one more with every result
    consumed.  As long as a result is left the resumption yields it;
    the count is [n] exactly when [k = n], which is exactly when the
    generator has left its loop, every result consumed. *)
Theorem progress_count_reaches_total (w : World) (path : string)
    (package_filter : list string) (timeout : Z) :
  let n := List.length (refs_filtered w path package_filter) in
  let results := items (lookups w path package_filter timeout) in
  let bar := progress_bar w path package_filter timeout in
  List.length results = n ->
  forall k : nat, (k <= n)%nat ->
    let g := fst (resume (S k) bar []) in
    g_i g = Z.of_nat k
    /\ (forall result, List.nth_error results k = Some result ->
          resumption (S k) bar [] = Yielded result /\ g_pc g = AtYield)
    /\ (g_i g = Z.of_nat n <-> k = n)
    /\ (k = n <-> g_pc g = AtEnd).
Proof.
  intros n results bar Hlen k Hk g.
  pose proof (resume_fresh k (lookups w path package_filter timeout)
                (Z.of_nat n) "" 20 false []) as Hfresh.
  cbv zeta in Hfresh.
  change (async_progressbar (lookups w path package_filter timeout)
                            (Z.of_nat n) "" 20 false) with bar in Hfresh.
  change (fst (resume (S k) bar [])) with g in Hfresh.
  change (items (lookups w path package_filter timeout)) with results in Hfresh.
  destruct Hfresh as (Hi & Hcase); [lia | lia |].
  split; [exact Hi|].
  assert (Hhd : List.hd_error (List.skipn k results) = List.nth_error results k)
    by apply List.hd_error_skipn.
  assert (Hall : List.skipn k results = [] <-> k = n).
  { rewrite <- List.skipn_all_iff. fold results in Hlen. lia. }
  unfold resumption; simpl Nat.pred.
  destruct (resume k bar []) as [g' file'] eqn:Hres; simpl in Hcase.
  destruct (List.skipn k results) as [|item rest] eqn:Hskip; simpl in Hhd.
  - destruct Hcase as (Hend & _).
    split; [intros result E; congruence|].
    split; [rewrite Hi; split; [lia | intros ->; reflexivity]|].
    split; [intros _; exact Hend | intros _; now apply Hall].
  - destruct Hcase as (Hr & Hpc).
    assert (Hkn : k <> n) by (intros E; apply Hall in E; discriminate).
    split; [intros result E; split; [congruence | exact Hpc]|].
    split; [rewrite Hi; split; [lia | contradiction]|].
    split; [contradiction | rewrite Hpc; discriminate].
Qed.

(** C4.  In a run whose lookups all came back, the rows of the report are
    the rows of the results that are not skipped, taken in an order in
    which no package name comes before a smaller one, strings being
    compared character by character. *)
Theorem report_rows_ascending (w : World) (path : string)
    (package_filter : list string) (target : VersionPart) (timeout : Z)
    (results : list SearchResult) (err : File) :
  collect (progress_bar w path package_filter timeout) [] = (Ok results, err) ->
  let printed :=
    List.filter (fun r => negb (skip (verdict target r)))
                (sorted (fun r => package (ref r)) results) in
  report (run w path package_filter target timeout)
  = List.map (fun r => row (compute_cols results) r (verdict target r)) printed
  /\ StronglySorted
       (fun a b => String.leb (package (ref a)) (package (ref b)) = true)
       printed.
Proof.
  intros Hcollect printed.
  destruct (run_completed w path package_filter target timeout results err
                          Hcollect) as [_ Hreport].
  split.
  - rewrite Hreport. apply flat_map_filter.
  - apply filter_sorted. apply sorted_is_sorted.
Qed.

(** C5.  Two runs that differ only in the order in which the lookups
    complete, none of which fails, leave the same output behind, when
    the package names of the results are all different: the same lines
    on the standard output, the same progress bar, the same calls. *)
Theorem report_independent_of_completion_order
    (find : string -> string) (inspect : string -> list RequirementRef)
    (search1 search2 : list RequirementRef -> Z -> AsyncIterator SearchResult)
    (path : string) (package_filter : list string) (target : VersionPart)
    (timeout : Z) :
  let w1 := mkWorld find inspect search1 in
  let w2 := mkWorld find inspect search2 in
  let it1 := lookups w1 path package_filter timeout in
  let it2 := lookups w2 path package_filter timeout in
  ending it1 = Exhausted -> ending it2 = Exhausted ->
  Permutation (items it1) (items it2) ->
  NoDup (List.map (fun r => package (ref r)) (items it1)) ->
  run w1 path package_filter target timeout
  = run w2 path package_filter target timeout.
Proof.
  intros w1 w2 it1 it2 He1 He2 Hperm Hnd.
  unfold run, progress_bar. fold it1 it2.
  change (refs_filtered w2 path package_filter)
    with (refs_filtered w1 path package_filter).
  change (find_conanfile w2 path) with (find_conanfile w1 path).
  set (n := Z.of_nat (List.length (refs_filtered w1 path package_filter))).
  rewrite !collect_async_progressbar, He1, He2.
  pose proof (bar_loop_map (fun _ => tt) n "" 20 false (items it1) Exhausted 0 [])
    as H1.
  pose proof (bar_loop_map (fun _ => tt) n "" 20 false (items it2) Exhausted 0 [])
    as H2.
  rewrite (map_unit_length (items it1) (items it2)
             (Permutation_length Hperm)) in H1.
  rewrite H1 in H2. clear H1.
  pose proof (bar_loop_exhausted n "" 20 false (items it1) Exhausted 0 []) as X1.
  pose proof (bar_loop_exhausted n "" 20 false (items it2) Exhausted 0 []) as X2.
  destruct (bar_loop n "" 20 false 0 (items it1) Exhausted [])
    as [[got1 end1] file1].
  destruct (bar_loop n "" 20 false 0 (items it2) Exhausted [])
    as [[got2 end2] file2].
  simpl in *. injection H2 as _ Hend Hfile. subst end2 file2.
  destruct end1 as [|e]; [|reflexivity].
  rewrite (X1 eq_refl), (X2 eq_refl).
  now rewrite (report_loop_perm target (items it1) (items it2) _ Hperm Hnd).
Qed.

(** C7.  When the user interrupts the run while it waits for a lookup,
    so that the lookups raise [KeyboardInterrupt] after some of the
    results, [run] raises it, [main] catches it and returns normally,
    and no row of the report has been printed. *)
Theorem main_catches_keyboard_interrupt (w : World) (args : Args) :
  let it :=
    lookups w (args_cwd args) (args_filter args) (args_timeout args) in
  let target := dict_get target_choices (args_target args) MAJOR in
  ending it = Fails KeyboardInterrupt ->
  (List.length (items it)
   <= List.length (refs_filtered w (args_cwd args) (args_filter args)))%nat ->
  outcome (run w (args_cwd args) (args_filter args) target (args_timeout args))
  = Raised KeyboardInterrupt
  /\ outcome (main w args) = Ok tt
  /\ report (main w args) = [].
Proof.
  intros it target Hend Hlen.
  assert (Hrun :
    exists err,
      run w (args_cwd args) (args_filter args) target (args_timeout args)
      = mkRun ["Checking " ++ colored (find_conanfile w (args_cwd args))
                                      [Colors.BOLD]]
              err [] (Raised KeyboardInterrupt)).
  { unfold run, progress_bar. fold it.
    rewrite collect_async_progressbar.
    pose proof (bar_loop_fits
                  (Z.of_nat (List.length
                     (refs_filtered w (args_cwd args) (args_filter args))))
                  "" 20 false (items it) (ending it) 0 []
                  ltac:(lia) ltac:(lia)) as Hfit.
    destruct (bar_loop _ _ _ _ _ _ _ _) as [[got how] err].
    simpl in Hfit. rewrite Hend in Hfit.
    injection Hfit as -> ->. now exists err. }
  destruct Hrun as [err Hrun].
  unfold main. fold target. rewrite Hrun. simpl. auto.
Qed.

End RunFacts.

(* ================================================================== *)
(** * The program on a sample recipe *)
(* ================================================================== *)

#[local] Existing Instance SpecImports.imports.

(** The imported functions, as modelled, on the examples the
    specification gives for them. *)

Example max_satisfying_caret :
  SpecImports.max_satisfying SpecImports.caret_1_2_0 SpecImports.registry
  = Some (SpecImports.sem 1 3 5).
Proof. reflexivity. Qed.

Example find_update_ceiling :
  let available :=
    [SpecImports.sem 1 2 4; SpecImports.sem 1 3 0; SpecImports.sem 2 0 0] in
  SpecImports.find_update (SpecImports.sem 1 2 3) available PATCH
  = Some (SpecImports.v 1 2 4)
  /\ SpecImports.find_update (SpecImports.sem 1 2 3) available MINOR
     = Some (SpecImports.v 1 3 0)
  /\ SpecImports.find_update (SpecImports.sem 1 2 3) available MAJOR
     = Some (SpecImports.v 2 0 0).
Proof. repeat split. Qed.

Example find_update_up_to_date :
  SpecImports.find_update (SpecImports.sem 2 0 0)
    [SpecImports.sem 1 9 9; SpecImports.sem 2 0 0] MAJOR = None.
Proof. reflexivity. Qed.

Example matches_any_patterns :
  SpecImports.matches_any "boost" ["boost*"; "!boost-test"] = true
  /\ SpecImports.matches_any "boost-test" ["boost*"; "!boost-test"] = false
  /\ SpecImports.matches_any "zlib" ["boost*"; "!boost-test"] = false.
Proof. repeat split. Qed.

(** The sample run: five requirements, all looked up. *)
Lemma sample_collect :
  collect (progress_bar SpecImports.sample "." [] 30) []
  = (Ok SpecImports.sample_results, SpecImports.sample_stderr).
Proof.
  unfold progress_bar. rewrite collect_async_progressbar. reflexivity.
Qed.

(** Of the five results, [abseil] is up to date and has no row. *)
Lemma report_drops_exactly_up_to_date_witness :
  collect (progress_bar SpecImports.sample "." [] 30) []
  = (Ok SpecImports.sample_results, SpecImports.sample_stderr)
  /\ List.length (report (run SpecImports.sample "." [] MAJOR 30)) = 4%nat
  /\ List.In (row (compute_cols SpecImports.sample_results) SpecImports.fmt
                  (verdict MAJOR SpecImports.fmt))
             (report (run SpecImports.sample "." [] MAJOR 30)).
Proof.
  split; [exact sample_collect|].
  destruct (report_drops_exactly_up_to_date SpecImports.sample "." [] MAJOR 30
              SpecImports.sample_results SpecImports.sample_stderr sample_collect)
    as [Hreport Hkept].
  split.
  - rewrite Hreport. reflexivity.
  - apply Hkept.
    + simpl. tauto.
    + right; left. reflexivity.
Defined.

Lemma resolve_version_range_witness :
  max_satifies SpecImports.caret_9_0_0
    (List.filter (fun v => is_semantic_version (Some v)) SpecImports.registry)
  = None
  /\ resolve_version (Range SpecImports.caret_1_2_0) SpecImports.registry
     = Some (SpecImports.sem 1 3 5)
  /\ invoked (verdict MAJOR SpecImports.qt) = [].
Proof.
  split; [reflexivity|]. split.
  - refine (eq_trans
              (proj1 (resolve_version_range (I := SpecImports.imports)
                        MAJOR "boost" SpecImports.caret_1_2_0
                        SpecImports.registry)) _).
    reflexivity.
  - apply (proj2 (resolve_version_range (I := SpecImports.imports)
                    MAJOR "qt" SpecImports.caret_9_0_0 SpecImports.registry)).
    reflexivity.
Defined.

Lemma progress_count_reaches_total_witness :
  List.length (items (lookups SpecImports.sample "." [] 30))
  = List.length (refs_filtered SpecImports.sample "." [])
  /\ g_i (fst (resume 3 (progress_bar SpecImports.sample "." [] 30) [])) = 2
  /\ g_pc (fst (resume 6 (progress_bar SpecImports.sample "." [] 30) [])) = AtEnd.
Proof.
  assert (Hlen : List.length (items (lookups SpecImports.sample "." [] 30))
                 = List.length (refs_filtered SpecImports.sample "." []))
    by reflexivity.
  split; [exact Hlen|]. split.
  - apply (progress_count_reaches_total SpecImports.sample "." [] 30 Hlen 2).
    simpl; lia.
  - apply (progress_count_reaches_total SpecImports.sample "." [] 30 Hlen 5).
    + simpl; lia.
    + reflexivity.
Defined.

Lemma report_rows_ascending_witness :
  collect (progress_bar SpecImports.sample "." [] 30) []
  = (Ok SpecImports.sample_results, SpecImports.sample_stderr)
  /\ StronglySorted
       (fun a b => String.leb (package (ref a)) (package (ref b)) = true)
       (List.filter (fun r => negb (skip (verdict MINOR r)))
          (sorted (fun r => package (ref r)) SpecImports.sample_results)).
Proof.
  split; [exact sample_collect|].
  apply (report_rows_ascending SpecImports.sample "." [] MINOR 30
           SpecImports.sample_results SpecImports.sample_stderr sample_collect).
Defined.

Lemma report_independent_of_completion_order_witness :
  run (SpecImports.world (@List.rev RequirementRef) Exhausted) "." [] MAJOR 30
  = run (SpecImports.world (fun refs => refs) Exhausted) "." [] MAJOR 30.
Proof.
  apply (report_independent_of_completion_order
           SpecImports.recipe SpecImports.inspect
           (SpecImports.search (@List.rev RequirementRef) Exhausted)
           (SpecImports.search (fun refs => refs) Exhausted)
           "." [] MAJOR 30).
  - reflexivity.
  - reflexivity.
  - apply Permutation_map, Permutation_sym, Permutation_rev.
  - vm_compute.
    repeat (constructor; [simpl; intuition discriminate|]). constructor.
Defined.

Lemma text_update_column_cases_witness :
  text_update_column (Some (Opaque "main")) None SpecImports.registry
  = "1.2.0, 1.3.5, 2.0.0"
  /\ strip_ansi (text_update_column (Some (SpecImports.sem 1 3 5))
                                    (Some (SpecImports.v 2 0 0))
                                    SpecImports.registry)
     = "2.0.0".
Proof.
  destruct (text_update_column_cases (I := SpecImports.imports)
              (Some (Opaque "main")) None SpecImports.registry) as [Hlist _].
  destruct (text_update_column_cases (I := SpecImports.imports)
              (Some (SpecImports.sem 1 3 5)) (Some (SpecImports.v 2 0 0))
              SpecImports.registry) as [_ Hupdate].
  split.
  - rewrite (Hlist eq_refl). reflexivity.
  - apply (proj2 (Hupdate (SpecImports.v 1 3 5) (SpecImports.v 2 0 0)
                          eq_refl eq_refl)).
    reflexivity.
Defined.

Lemma main_catches_keyboard_interrupt_witness :
  ending (lookups SpecImports.interrupted "." [] 30) = Fails KeyboardInterrupt
  /\ outcome (main SpecImports.interrupted SpecImports.sample_args) = Ok tt
  /\ stdout (main SpecImports.interrupted SpecImports.sample_args)
     = ["Checking " ++ colored "./conanfile.txt" [Colors.BOLD]].
Proof.
  split; [reflexivity|].
  destruct (main_catches_keyboard_interrupt SpecImports.interrupted
              SpecImports.sample_args) as (_ & Hok & _).
  - reflexivity.
  - simpl; lia.
  - split; [exact Hok | reflexivity].
Defined.

(* ================================================================== *)
(** * Further properties of the driver *)
(* ================================================================== *)

(** ** Where the highlighting starts *)

Lemma length_append (a b : string) :
  String.length (a ++ b) = (String.length a + String.length b)%nat.
Proof. induction a as [|x a IH]; simpl; [reflexivity | now rewrite IH]. Qed.

(** A first difference at [i] splits both strings after a common part of
    [i] characters, and the next characters differ. *)
Lemma i_first_diff_split (version compare : string) (i : nat) :
  i_first_diff version compare = Some i ->
  exists a rest b rest',
    version = PyStr.take i version ++ String a rest
    /\ compare = PyStr.take i version ++ String b rest'
    /\ PyStr.drop i version = String a rest
    /\ a <> b.
Proof.
  revert compare i; induction version as [|x v IH]; intros [|y c] i;
    try discriminate.
  rewrite i_first_diff_cons.
  destruct (Ascii.eqb_spec x y) as [<- | Hne].
  - destruct (i_first_diff v c) as [k|] eqn:Hk; [|discriminate].
    simpl. intros E; injection E as <-.
    destruct (IH c k Hk) as (a & rest & b & rest' & Hv & Hc & Hd & Hab).
    exists a, rest, b, rest'. simpl. repeat split; congruence.
  - intros E; injection E as <-. exists x, v, y, c. simpl. auto.
Qed.

(** X1.  When the version differs from the string it is compared with at
    a position both have, the two share a beginning, their next
    characters differ, and the result is that beginning as it is, then
    the colour code, the rest of the version and [RESET]: the colour
    starts at the first character that differs. *)
Theorem highlight_starts_at_first_difference
    (version compare highlight : string) :
  agree version compare = false ->
  exists common a rest b rest',
    version = common ++ String a rest
    /\ compare = common ++ String b rest'
    /\ a <> b
    /\ highlight_version_diff version compare highlight
       = common ++ highlight ++ String a rest ++ Colors.RESET.
Proof.
  intros Hdiff. unfold highlight_version_diff.
  destruct (i_first_diff version compare) as [i|] eqn:Hi.
  - destruct (i_first_diff_split version compare i Hi)
      as (a & rest & b & rest' & Hv & Hc & Hd & Hab).
    exists (PyStr.take i version), a, rest, b, rest'.
    repeat split; try assumption.
    rewrite Hd. unfold colored, PyStr.join. simpl. reflexivity.
  - apply i_first_diff_agree in Hi. congruence.
Qed.

Lemma highlight_starts_at_first_difference_witness :
  agree "1.13.0" "1.9.2" = false
  /\ exists common a rest b rest',
       "1.13.0" = common ++ String a rest
       /\ "1.9.2" = common ++ String b rest'
       /\ a <> b
       /\ highlight_version_diff "1.13.0" "1.9.2" Colors.GREEN
          = common ++ Colors.GREEN ++ String a rest ++ Colors.RESET.
Proof.
  split; [reflexivity|].
  exact (highlight_starts_at_first_difference "1.13.0" "1.9.2" Colors.GREEN
           eq_refl).
Defined.

(** X2.  The result is the version itself exactly when the two strings
    differ at no position both have; otherwise it is longer than the
    version by the colour code and the four characters of [RESET]. *)
Theorem highlight_version_diff_unchanged_iff
    (version compare highlight : string) :
  (highlight_version_diff version compare highlight = version
   <-> agree version compare = true)
  /\ (agree version compare = false ->
      String.length (highlight_version_diff version compare highlight)
      = (String.length version + String.length highlight + 4)%nat).
Proof.
  assert (Hlen : agree version compare = false ->
                 String.length (highlight_version_diff version compare highlight)
                 = (String.length version + String.length highlight + 4)%nat).
  { intros Hdiff.
    destruct (highlight_starts_at_first_difference version compare highlight
                Hdiff) as (common & a & rest & b & rest' & Hv & _ & _ & ->).
    rewrite Hv. rewrite !length_append. simpl.
    rewrite ?length_append. simpl. lia. }
  split; [|exact Hlen].
  split.
  - intros Hsame. destruct (agree version compare) eqn:Hagree; [reflexivity|].
    specialize (Hlen eq_refl). rewrite Hsame in Hlen. lia.
  - apply highlight_version_diff_agree.
Qed.

Lemma highlight_version_diff_unchanged_iff_witness :
  agree "2.0.0" "1.9.9" = false
  /\ String.length (highlight_version_diff "2.0.0" "1.9.9" Colors.RED) = 14%nat.
Proof.
  split; [reflexivity|].
  exact (proj2 (highlight_version_diff_unchanged_iff "2.0.0" "1.9.9" Colors.RED)
           eq_refl).
Defined.

(** ** The line of the progress bar *)

Lemma length_concat_repeat (s : string) (k : nat) :
  String.length (String.concat "" (List.repeat s k))
  = (k * String.length s)%nat.
Proof.
  induction k as [|k IH]; [reflexivity|].
  destruct k as [|k]; [simpl; lia|].
  change (String.concat "" (List.repeat s (S (S k))))
    with (s ++ "" ++ String.concat "" (List.repeat s (S k))).
  rewrite !length_append, IH. simpl. lia.
Qed.

Lemma length_repeat_char (c : ascii) (n : Z) :
  String.length (PyStr.repeat (String c "") n) = Z.to_nat n.
Proof. unfold PyStr.repeat. rewrite length_concat_repeat. simpl. lia. Qed.

(** The two quotients of [show], for a count in its range. *)
Lemma quot_scaled_bounds (scale j total : Z) :
  0 <= scale -> 0 <= j <= total -> 0 < total ->
  0 <= Z.quot (scale * j) total <= scale
  /\ (j < total -> 0 < scale -> Z.quot (scale * j) total < scale).
Proof.
  intros Hs Hj Ht.
  rewrite Z.quot_div_nonneg by nia.
  split; [split|].
  - apply Z.div_pos; nia.
  - apply Z.div_le_upper_bound; nia.
  - intros Hlt Hpos. apply Z.div_lt_upper_bound; nia.
Qed.

Lemma show_line (total : Z) (desc : string) (size j : Z) :
  0 <= j <= total ->
  show total desc size j
  = Ok (bar_line desc size
          (if 0 <? total then Z.quot (size * j) total else size) j total
          (if 0 <? total then Z.quot (100 * j) total else 100)).
Proof.
  intros [H0 Ht]. unfold show, py_assert.
  apply Z.leb_le in H0; apply Z.leb_le in Ht; rewrite H0, Ht; simpl.
  destruct (0 <? total) eqn:Hpos; simpl; [|reflexivity].
  apply Z.ltb_lt in Hpos. unfold int_truediv.
  destruct (total =? 0) eqn:Hz; [apply Z.eqb_eq in Hz; lia|].
  reflexivity.
Qed.

(** X3.  For a size that is not negative and a count from 0 to [total],
    [show] writes a line whose bar has between 0 and [size] marks and is
    [size] characters wide, marks and dashes together, and whose
    percentage is between 0 and 100. *)
Theorem show_bar_geometry (total : Z) (desc : string) (size j : Z) :
  0 <= size -> 0 <= j <= total ->
  exists nbar perc,
    show total desc size j = Ok (bar_line desc size nbar j total perc)
    /\ 0 <= nbar <= size
    /\ 0 <= perc <= 100
    /\ String.length (PyStr.repeat "=" nbar ++ PyStr.repeat "-" (size - nbar))
       = Z.to_nat size.
Proof.
  intros Hsize Hj.
  exists (if 0 <? total then Z.quot (size * j) total else size),
         (if 0 <? total then Z.quot (100 * j) total else 100).
  split; [now apply show_line|].
  assert (Hn : 0 <= (if 0 <? total then Z.quot (size * j) total else size) <= size).
  { destruct (0 <? total) eqn:Hpos; [|lia].
    apply Z.ltb_lt in Hpos. now apply quot_scaled_bounds. }
  split; [exact Hn|]. split.
  - destruct (0 <? total) eqn:Hpos; [|lia].
    apply Z.ltb_lt in Hpos. apply quot_scaled_bounds; lia.
  - rewrite length_append, !length_repeat_char. lia.
Qed.

Lemma show_bar_geometry_witness :
  exists nbar perc,
    show 3 "conan " 20 1 = Ok (bar_line "conan " 20 nbar 1 3 perc)
    /\ 0 <= nbar <= 20
    /\ 0 <= perc <= 100
    /\ String.length (PyStr.repeat "=" nbar ++ PyStr.repeat "-" (20 - nbar))
       = Z.to_nat 20.
Proof. apply show_bar_geometry; lia. Defined.



(** ** What the progress bar writes *)

Section ProgressOutput.

Context {A : Type}.



Lemma show_assertion_fails (total : Z) (desc : string) (size j : Z) :
  total < j -> show total desc size j = Raised AssertionError.
Proof.
  intros Hj. unfold show, py_assert.
  assert (E : (j <=? total) = false) by (apply Z.leb_gt; lia).
  rewrite E, andb_false_r. reflexivity.
Qed.

Lemma bar_loop_overflow (total : Z) (desc : string) (size : Z) (keep : bool)
    (todo : list A) (how : Ending) :
  forall (i : Z) (file : File),
    0 <= i -> total < i + Z.of_nat (List.length todo) ->
    fst (bar_loop total desc size keep i todo how file)
    = mkIter (List.firstn (Z.to_nat (total - i + 1)) todo)
             (Fails AssertionError).
Proof.
  induction todo as [|item rest IH]; intros i file Hi Hover; simpl in Hover.
  - cbn [bar_loop]. rewrite show_assertion_fails by lia.
    now rewrite List.firstn_nil.
  - destruct (Z.le_gt_cases i total) as [Hle | Hgt].
    + cbn [bar_loop].
      destruct (@show_ok total desc size i) as [txt ->]; [lia|].
      specialize (IH (i + 1) (file ++ [Write txt; Flush])%list).
      destruct (bar_loop total desc size keep (i + 1) rest how _)
        as [later file'].
      simpl in IH |- *. rewrite IH by lia. simpl.
      replace (Z.to_nat (total - i + 1)) with (S (Z.to_nat (total - (i + 1) + 1)))
        by lia.
      reflexivity.
    + cbn [bar_loop]. rewrite show_assertion_fails by lia.
      replace (Z.to_nat (total - i + 1)) with O by lia. reflexivity.
Qed.

(** X7.  With an iterator that has more items than [total], the generator
    yields the first [total + 1] of them and then raises
    [AssertionError]; with a negative [total] it yields nothing and
    writes nothing before it raises. *)
Theorem async_progressbar_too_many_items (it : AsyncIterator A) (total : Z)
    (desc : string) (size : Z) (keep : bool) (file : File) :
  total < Z.of_nat (List.length (items it)) ->
  fst (drain (async_progressbar it total desc size keep) file)
  = mkIter (List.firstn (Z.to_nat (total + 1)) (items it))
           (Fails AssertionError)
  /\ (total < 0 ->
      drain (async_progressbar it total desc size keep) file
      = (mkIter [] (Fails AssertionError), file)).
Proof.
  intros Hover. rewrite drain_async_progressbar. split.
  - rewrite bar_loop_overflow by lia. now rewrite Z.sub_0_r.
  - intros Hneg. destruct (items it); cbn [bar_loop];
      now rewrite show_assertion_fails by lia.
Qed.

End ProgressOutput.

(** X6.  What the generator writes, and how it ends, depend on the number
    of the items only, not on the items: two iterators of the same length
    that end the same way, whatever they yield, leave the same file. *)
Theorem async_progressbar_output_ignores_items {A B : Type}
    (it1 : AsyncIterator A) (it2 : AsyncIterator B) (total : Z)
    (desc : string) (size : Z) (keep : bool) (file : File) :
  List.length (items it1) = List.length (items it2) ->
  ending it1 = ending it2 ->
  snd (drain (async_progressbar it1 total desc size keep) file)
  = snd (drain (async_progressbar it2 total desc size keep) file)
  /\ ending (fst (drain (async_progressbar it1 total desc size keep) file))
     = ending (fst (drain (async_progressbar it2 total desc size keep) file)).
Proof.
  intros Hlen Hend. rewrite !drain_async_progressbar, <- Hend.
  pose proof (bar_loop_map (fun _ => tt) total desc size keep (items it1)
                (ending it1) 0 file) as H1.
  pose proof (bar_loop_map (fun _ => tt) total desc size keep (items it2)
                (ending it1) 0 file) as H2.
  rewrite (map_unit_length (items it1) (items it2) Hlen) in H1.
  rewrite H1 in H2. injection H2 as _ He Hf. auto.
Qed.


Lemma async_progressbar_too_many_items_witness :
  fst (drain (async_progressbar (mkIter ["zlib"; "fmt"; "boost"] Exhausted)
                                1 "" 20 false) [])
  = mkIter ["zlib"; "fmt"] (Fails AssertionError).
Proof.
  refine (proj1 (async_progressbar_too_many_items
                   (mkIter ["zlib"; "fmt"; "boost"] Exhausted) 1 "" 20 false [] _)).
  simpl; lia.
Defined.

Lemma async_progressbar_output_ignores_items_witness :
  snd (drain (async_progressbar (mkIter ["zlib"; "fmt"] Exhausted) 2 "" 20 false) [])
  = snd (drain (async_progressbar (mkIter [true; false] Exhausted) 2 "" 20 false) []).
Proof.
  apply (async_progressbar_output_ignores_items
           (mkIter ["zlib"; "fmt"] Exhausted) (mkIter [true; false] Exhausted)
           2 "" 20 false []); reflexivity.
Defined.

(** ** [sorted] keeps ties in their order *)

Lemma ltb_irrefl (a : string) : String.ltb a a = false.
Proof.
  destruct (String.ltb a a) eqn:E; [|reflexivity].
  now rewrite (ltb_asym a a E) in E.
Qed.

Lemma filter_insert_by {A : Type} (key : A -> string) (k : string)
    (x : A) (l : list A) :
  List.filter (fun y => String.eqb (key y) k) (insert_by key x l)
  = List.filter (fun y => String.eqb (key y) k) (x :: l).
Proof.
  induction l as [|y l IH]; [reflexivity|].
  cbn [insert_by]. destruct (String.ltb (key y) (key x)) eqn:Hyx;
    [|reflexivity].
  cbn [List.filter] in IH |- *. rewrite IH.
  destruct (String.eqb_spec (key x) k) as [Hx | Hx];
    destruct (String.eqb_spec (key y) k) as [Hy | Hy]; try reflexivity.
  rewrite Hx, Hy, ltb_irrefl in Hyx. discriminate.
Qed.

(** X12.  [sorted] gives back the elements it was given, each as often as
    it was there, and those with the same key in the order they had: in
    the report, results with the same package name stay in the order in
    which their lookups completed. *)
Theorem sorted_stable {A : Type} (key : A -> string) (l : list A) :
  Permutation (sorted key l) l
  /\ forall k : string,
       List.filter (fun y => String.eqb (key y) k) (sorted key l)
       = List.filter (fun y => String.eqb (key y) k) l.
Proof.
  split; [apply sorted_perm|].
  intros k. induction l as [|x l IH]; [reflexivity|].
  cbn [sorted List.fold_right]. fold (sorted key l).
  rewrite filter_insert_by. cbn [List.filter]. now rewrite IH.
Qed.

(** ** [list_choices] *)

(** X11.  [list_choices] of no item is the empty string and of one item
    is that item; of two or more it is the items separated by commas,
    except the last two, which are joined by [" or "]. *)
Theorem list_choices_shape :
  list_choices [] = ""
  /\ (forall a, list_choices [a] = a)
  /\ (forall init a b,
        list_choices (init ++ [a; b])
        = PyStr.join ", " (init ++ [a ++ " or " ++ b])).
Proof.
  split; [reflexivity|]. split; [reflexivity|].
  intros init a b. unfold list_choices, last_items, but_last.
  rewrite List.length_app. cbn [List.length].
  replace (List.length init + 2 - 2)%nat with (List.length init + 0)%nat by lia.
  rewrite List.skipn_app, List.firstn_app_2.
  rewrite Nat.add_0_r, List.skipn_all. cbn [List.firstn].
  replace (List.length init - List.length init)%nat with O by lia.
  rewrite List.app_nil_r. reflexivity.
Qed.

(** ** The run, further *)

Section RunMore.

Context {I : Imports}.

Lemma fold_left_max_ge (l : list Z) :
  forall a, a <= List.fold_left Z.max l a
            /\ forall x, List.In x l -> x <= List.fold_left Z.max l a.
Proof.
  induction l as [|y l IH]; intros a; simpl.
  - split; [lia | tauto].
  - destruct (IH (Z.max a y)) as [Ha Hin]. split; [lia|].
    intros x [<- | Hx]; [lia | now apply Hin].
Qed.

Lemma length_ljust (w : Z) (s : string) :
  PyStr.len s <= w -> String.length (PyStr.ljust w s) = Z.to_nat w.
Proof.
  unfold PyStr.ljust, PyStr.len. intros H.
  rewrite length_append, (length_repeat_char " "). lia.
Qed.

Lemma length_rjust (w : Z) (s : string) :
  PyStr.len s <= w -> String.length (PyStr.rjust w s) = Z.to_nat w.
Proof.
  unfold PyStr.rjust, PyStr.len. intros H.
  rewrite length_append, (length_repeat_char " "). lia.
Qed.

(** The widths are wide enough for every collected result. *)
Lemma compute_cols_fit (results : list SearchResult) :
  11 <= cols_package (compute_cols results)
  /\ 10 <= cols_version (compute_cols results)
  /\ forall r, List.In r results ->
       PyStr.len (package (ref r)) < cols_package (compute_cols results)
       /\ PyStr.len (like_or_range_str (version (ref r)))
          <= cols_version (compute_cols results).
Proof.
  unfold compute_cols, py_max; cbn [cols_package cols_version].
  set (names := List.map (fun r => PyStr.len (package (ref r))) results).
  set (vers := List.map
                 (fun r => PyStr.len (like_or_range_str (version (ref r))))
                 results).
  destruct (fold_left_max_ge names (Z.max 0 10)) as [Hn0 Hn].
  destruct (fold_left_max_ge vers (Z.max 0 10)) as [Hv0 Hv].
  split; [lia|]. split; [lia|].
  intros r Hr. split.
  - assert (PyStr.len (package (ref r))
            <= List.fold_left Z.max names (Z.max 0 10)); [|lia].
    apply Hn. unfold names.
    now apply (List.in_map (fun r => PyStr.len (package (ref r)))).
  - apply Hv. unfold vers.
    now apply (List.in_map
                 (fun r => PyStr.len (like_or_range_str (version (ref r))))).
Qed.

(** X9.  The rows of a report are aligned: the package column is at least
    11 wide and the version column at least 10, and every row is a left
    part of the same length, the two columns and the space between them,
    followed by the arrow between two pairs of spaces and by the update
    column. *)
Theorem report_rows_aligned (w : World) (path : string)
    (package_filter : list string) (target : VersionPart) (timeout : Z)
    (results : list SearchResult) (err : File) :
  collect (progress_bar w path package_filter timeout) [] = (Ok results, err) ->
  let cols := compute_cols results in
  11 <= cols_package cols
  /\ 10 <= cols_version cols
  /\ forall line,
       List.In line (report (run w path package_filter target timeout)) ->
       exists left column,
         line = left ++ "  " ++ ARROW ++ "  " ++ column
         /\ String.length left
            = Z.to_nat (cols_package cols + 1 + cols_version cols).
Proof.
  intros Hcollect cols. subst cols.
  destruct (compute_cols_fit results) as (Hp & Hv & Hfit).
  split; [exact Hp|]. split; [exact Hv|].
  intros line Hline.
  destruct (run_completed w path package_filter target timeout results err
                          Hcollect) as [_ Hreport].
  rewrite Hreport in Hline. apply List.in_flat_map in Hline as (r & Hr & Hline).
  apply (Permutation_in _ (sorted_perm _ results)) in Hr.
  destruct (skip (verdict target r)); [contradiction|].
  destruct Hline as [<- | []].
  destruct (Hfit r Hr) as [Hname Hver].
  exists (PyStr.ljust (cols_package (compute_cols results)) (package (ref r))
          ++ " "
          ++ PyStr.rjust (cols_version (compute_cols results))
               (like_or_range_str (version (ref r)))),
         (text_update_column (current_version_resolved (verdict target r))
                             (update_version (verdict target r)) (versions r)).
  split.
  - unfold row, format_str. now rewrite !append_assoc.
  - rewrite !length_append, length_ljust, length_rjust by lia.
    cbn [String.length]. lia.
Qed.

(** X10.  The update column of a result that is not skipped is never the
    bare current version: it is the list of the available versions, or,
    for a semantic current version with an update, the update version
    with its difference highlighted. *)
Theorem printed_update_column (target : VersionPart) (result : SearchResult) :
  let v := verdict target result in
  skip v = false ->
  text_update_column (current_version_resolved v) (update_version v)
                     (versions result)
  = PyStr.join ", " (List.map like_str (versions result))
  \/ exists c u,
       current_version_resolved v = Some (Semantic c)
       /\ update_version v = Some u
       /\ text_update_column (current_version_resolved v) (update_version v)
                             (versions result)
          = highlight_version_diff (version_str u) (version_str c) Colors.RED.
Proof.
  intros v. unfold skip, text_update_column.
  destruct (current_version_resolved v) as [[c | s] |]; simpl; auto.
  destruct (update_version v) as [u|]; [|discriminate].
  intros _. right. exists c, u. auto.
Qed.

(** X15.  A requirement pinned to a string that is not a version is never
    skipped and its update column is the list of the available versions;
    [find_update] is called for it unless the string is empty. *)
Theorem verdict_opaque (target : VersionPart) (name s : string)
    (available : list VLike) :
  let result := mkResult (mkRef name (Like (Opaque s))) available in
  let v := verdict target result in
  skip v = false
  /\ text_update_column (current_version_resolved v) (update_version v)
                        available
     = PyStr.join ", " (List.map like_str available)
  /\ (s = "" -> invoked v = [] /\ update_version v = None)
  /\ (s <> "" -> invoked v = [mkCall (Opaque s) available target]).
Proof.
  intros result v. subst v result. unfold verdict. cbn.
  destruct (String.eqb_spec s "") as [-> | Hne]; cbn.
  - split; [reflexivity|]. split; [reflexivity|].
    split; [auto | intros Hne; contradiction].
  - split; [reflexivity|]. split; [reflexivity|].
    split; [intros E; contradiction | auto].
Qed.

(** X8.  When the lookups raise an exception after some of the results,
    [run] raises it: nothing but the first line has been printed and
    [find_update] has not been called.  [main] lets the exception through
    unless it is [KeyboardInterrupt]. *)
Theorem run_lookup_failure (w : World) (args : Args) (e : Exn) :
  let it :=
    lookups w (args_cwd args) (args_filter args) (args_timeout args) in
  let target := dict_get target_choices (args_target args) MAJOR in
  let r :=
    run w (args_cwd args) (args_filter args) target (args_timeout args) in
  ending it = Fails e ->
  (List.length (items it)
   <= List.length (refs_filtered w (args_cwd args) (args_filter args)))%nat ->
  outcome r = Raised e
  /\ stdout r
     = ["Checking " ++ colored (find_conanfile w (args_cwd args)) [Colors.BOLD]]
  /\ calls r = []
  /\ outcome (main w args)
     = match e with KeyboardInterrupt => Ok tt | _ => Raised e end.
Proof.
  intros it target r Hend Hlen.
  assert (Hrun :
    exists err,
      r = mkRun ["Checking " ++ colored (find_conanfile w (args_cwd args))
                                        [Colors.BOLD]]
                err [] (Raised e)).
  { subst r. unfold run, progress_bar. fold it.
    rewrite collect_async_progressbar.
    pose proof (bar_loop_fits
                  (Z.of_nat (List.length
                     (refs_filtered w (args_cwd args) (args_filter args))))
                  "" 20 false (items it) (ending it) 0 []
                  ltac:(lia) ltac:(lia)) as Hfit.
    destruct (bar_loop _ _ _ _ _ _ _ _) as [[got how] err].
    simpl in Hfit. rewrite Hend in Hfit.
    injection Hfit as -> ->. now exists err. }
  destruct Hrun as [err Hrun].
  unfold main. fold target. fold r. rewrite Hrun. simpl.
  repeat split. destruct e; reflexivity.
Qed.

(** X13.  With no requirement left after the filter, and so no lookup,
    [run] prints its first line only; on the standard error it shows one
    full bar, [0/0 100%], the case that the test [total > 0] keeps from
    dividing by zero, and the closing carriage return. *)
Theorem run_without_requirements (w : World) (path : string)
    (package_filter : list string) (target : VersionPart) (timeout : Z) :
  refs_filtered w path package_filter = [] ->
  lookups w path package_filter timeout = mkIter [] Exhausted ->
  run w path package_filter target timeout
  = mkRun ["Checking " ++ colored (find_conanfile w path) [Colors.BOLD]]
          [Write (bar_line "" 20 20 0 0 100); Flush; Write CR; Flush]
          [] (Ok tt).
Proof.
  intros Hrefs Hit. unfold run, progress_bar.
  rewrite collect_async_progressbar, Hrefs, Hit. reflexivity.
Qed.

End RunMore.

(** ** [colored] and the colour codes *)

Lemma strip_color (c rest : string) :
  List.In c [Colors.RESET; Colors.BOLD; Colors.DISABLE; Colors.UNDERLINE;
             Colors.REVERSE; Colors.RED; Colors.GREEN; Colors.ORANGE;
             Colors.BLUE; Colors.PURPLE; Colors.CYAN] ->
  strip_from Plain (c ++ rest) = strip_from Plain rest.
Proof.
  intros Hc. repeat (destruct Hc as [<- | Hc]; [reflexivity|]). destruct Hc.
Qed.

(** X14.  Every constant of [Colors] is a whole colour code: a text with
    no escape character of its own, coloured with any of them by
    [colored], is the text again once the colour codes are removed. *)
Theorem colored_strip (txt : string) (colors : list string) :
  no_esc txt = true ->
  (forall c, List.In c colors ->
     List.In c [Colors.RESET; Colors.BOLD; Colors.DISABLE; Colors.UNDERLINE;
                Colors.REVERSE; Colors.RED; Colors.GREEN; Colors.ORANGE;
                Colors.BLUE; Colors.PURPLE; Colors.CYAN]) ->
  strip_ansi (colored txt colors) = txt.
Proof.
  intros Hplain Hcolors. unfold strip_ansi, colored, PyStr.join.
  induction colors as [|c colors IH].
  - simpl. rewrite strip_plain_app by assumption. simpl. apply append_nil_r.
  - change (String.concat "" ((c :: colors) ++ [txt; Colors.RESET]))
      with (match (colors ++ [txt; Colors.RESET])%list with
            | [] => c
            | _ :: _ => c ++ "" ++ String.concat "" (colors ++ [txt; Colors.RESET])
            end).
    destruct (colors ++ [txt; Colors.RESET])%list as [|x rest] eqn:E.
    + destruct colors; discriminate.
    + rewrite strip_color by (apply Hcolors; now left).
      simpl String.append. apply IH.
      intros c' Hc'. apply Hcolors. now right.
Qed.

Lemma colored_strip_witness :
  no_esc "conanfile.txt" = true
  /\ strip_ansi (colored "conanfile.txt" [Colors.BOLD; Colors.UNDERLINE])
     = "conanfile.txt".
Proof.
  split; [reflexivity|].
  apply colored_strip; [reflexivity|].
  intros c [<- | [<- | []]]; simpl; tauto.
Defined.

(** ** The further properties on the sample recipe *)

Lemma report_rows_aligned_witness :
  collect (progress_bar SpecImports.sample "." [] 30) []
  = (Ok SpecImports.sample_results, SpecImports.sample_stderr)
  /\ forall line,
       List.In line (report (run SpecImports.sample "." [] PATCH 30)) ->
       exists left column,
         line = left ++ "  " ++ ARROW ++ "  " ++ column
         /\ String.length left = 22%nat.
Proof.
  split; [exact sample_collect|].
  exact (proj2 (proj2 (report_rows_aligned SpecImports.sample "." [] PATCH 30
                         SpecImports.sample_results SpecImports.sample_stderr
                         sample_collect))).
Defined.

Lemma printed_update_column_witness :
  skip (verdict MAJOR SpecImports.boost) = false
  /\ (text_update_column
        (current_version_resolved (verdict MAJOR SpecImports.boost))
        (update_version (verdict MAJOR SpecImports.boost))
        (versions SpecImports.boost)
      = PyStr.join ", " (List.map like_str (versions SpecImports.boost))
      \/ exists c u,
           current_version_resolved (verdict MAJOR SpecImports.boost)
           = Some (Semantic c)
           /\ update_version (verdict MAJOR SpecImports.boost) = Some u
           /\ text_update_column
                (current_version_resolved (verdict MAJOR SpecImports.boost))
                (update_version (verdict MAJOR SpecImports.boost))
                (versions SpecImports.boost)
              = highlight_version_diff (version_str u) (version_str c)
                                       Colors.RED).
Proof.
  split; [reflexivity|].
  exact (printed_update_column MAJOR SpecImports.boost eq_refl).
Defined.

Lemma verdict_opaque_witness :
  invoked (verdict MINOR (mkResult (mkRef "fmt" (Like (Opaque ""))) SpecImports.registry))
  = []
  /\ invoked (verdict MINOR SpecImports.fmt)
     = [mkCall (Opaque "main") SpecImports.registry MINOR].
Proof.
  split.
  - apply (verdict_opaque (I := SpecImports.imports) MINOR "fmt" ""
             SpecImports.registry).
    reflexivity.
  - apply (verdict_opaque (I := SpecImports.imports) MINOR "fmt" "main"
             SpecImports.registry).
    discriminate.
Defined.

Lemma run_lookup_failure_witness :
  let w := SpecImports.world (List.firstn 2) (Fails (OtherError "ConanError")) in
  ending (lookups w "." [] 30) = Fails (OtherError "ConanError")
  /\ outcome (main w SpecImports.sample_args) = Raised (OtherError "ConanError")
  /\ calls (run w "." [] MINOR 30) = [].
Proof.
  intros w. split; [reflexivity|].
  destruct (run_lookup_failure w SpecImports.sample_args
              (OtherError "ConanError")) as (_ & _ & Hcalls & Hmain).
  - reflexivity.
  - simpl; lia.
  - split; [exact Hmain | exact Hcalls].
Defined.

Lemma run_without_requirements_witness :
  refs_filtered SpecImports.sample "." ["!*"] = []
  /\ stderr (run SpecImports.sample "." ["!*"] MAJOR 30)
     = [Write (bar_line "" 20 20 0 0 100); Flush; Write CR; Flush].
Proof.
  split; [reflexivity|].
  rewrite (run_without_requirements SpecImports.sample "." ["!*"] MAJOR 30
             eq_refl eq_refl).
  reflexivity.
Defined.

(** ** The calls of [find_update] *)

Section FindUpdateCalls.

Context {I : Imports}.

Lemma invoked_at_most_once (target : VersionPart) (result : SearchResult) :
  (List.length (invoked (verdict target result)) <= 1)%nat
  /\ List.Forall (fun c => call_target c = target
                           /\ call_versions c = versions result)
                 (invoked (verdict target result)).
Proof.
  unfold verdict.
  destruct (resolve_version _ _) as [current|]; [|simpl; auto].
  destruct (truthy (Some current)); simpl; auto.
Qed.

(** X16.  For a result whose current version resolves to a semantic
    version, pinned or the greatest of a range: [find_update] is called
    once, with that version, the available versions and the target; the
    result is skipped exactly when the call gives no update; and an
    update it gives is what the update column shows, highlighted. *)
Theorem verdict_semantic (target : VersionPart) (result : SearchResult)
    (c : Version) :
  resolve_version (version (ref result)) (versions result)
  = Some (Semantic c) ->
  let v := verdict target result in
  let found := find_update (Semantic c) (versions result) target in
  invoked v = [mkCall (Semantic c) (versions result) target]
  /\ update_version v = found
  /\ (skip v = true <-> found = None)
  /\ (forall u, found = Some u ->
        text_update_column (current_version_resolved v) (update_version v)
                           (versions result)
        = highlight_version_diff (version_str u) (version_str c) Colors.RED).
Proof.
  intros Hres v found. subst v found. unfold verdict. rewrite Hres. cbn.
  split; [reflexivity|]. split; [reflexivity|]. split.
  - unfold skip; cbn.
    destruct (find_update (Semantic c) (versions result) target);
      split; congruence.
  - intros u Hu. unfold text_update_column; cbn. now rewrite Hu.
Qed.

(** X17.  In a run whose lookups all came back, [find_update] is called
    at most once for each collected result, and never with another
    target than the one the run was given. *)
Theorem run_find_update_calls (w : World) (path : string)
    (package_filter : list string) (target : VersionPart) (timeout : Z)
    (results : list SearchResult) (err : File) :
  collect (progress_bar w path package_filter timeout) [] = (Ok results, err) ->
  (List.length (calls (run w path package_filter target timeout))
   <= List.length results)%nat
  /\ List.Forall (fun c => call_target c = target)
                 (calls (run w path package_filter target timeout)).
Proof.
  intros Hcollect. unfold run. rewrite Hcollect.
  unfold report_loop. rewrite report_step_fold. cbn.
  rewrite <- (Permutation_length (sorted_perm (fun r => package (ref r)) results)).
  induction (sorted (fun r => package (ref r)) results) as [|r rs [IHlen IHall]];
    cbn; [auto|].
  destruct (invoked_at_most_once target r) as [Hlen Hall].
  split.
  - rewrite List.length_app. lia.
  - apply List.Forall_app. split; [|exact IHall].
    eapply List.Forall_impl; [|exact Hall]. now intros c [Hc _].
Qed.

End FindUpdateCalls.

Lemma verdict_semantic_witness :
  resolve_version (version (ref SpecImports.boost)) (versions SpecImports.boost)
  = Some (SpecImports.sem 1 3 5)
  /\ invoked (verdict PATCH SpecImports.boost)
     = [mkCall (SpecImports.sem 1 3 5) SpecImports.registry PATCH]
  /\ skip (verdict PATCH SpecImports.boost) = true.
Proof.
  split; [reflexivity|].
  destruct (verdict_semantic PATCH SpecImports.boost (SpecImports.v 1 3 5)
              eq_refl) as (Hcall & _ & Hskip & _).
  split; [exact Hcall | apply Hskip; reflexivity].
Defined.

Lemma run_find_update_calls_witness :
  collect (progress_bar SpecImports.sample "." [] 30) []
  = (Ok SpecImports.sample_results, SpecImports.sample_stderr)
  /\ List.Forall (fun c => call_target c = MINOR)
                 (calls (run SpecImports.sample "." [] MINOR 30)).
Proof.
  split; [exact sample_collect|].
  exact (proj2 (run_find_update_calls SpecImports.sample "." [] MINOR 30
                  SpecImports.sample_results SpecImports.sample_stderr
                  sample_collect)).
Defined.
